(** * Search actions and workbench bootstrap: a shallow embedding

    This development embeds the command handlers of
    [vs/workbench/contrib/search/browser/searchActions.ts] and the web
    bootstrap [create] that follows it in the same source file, and proves
    the properties stated about them.

    Conventions of the embedding:
    - a JavaScript value that may be [undefined] or [null] is an [option];
    - a module-level variable, a registry or a widget that the code mutates
      is a field of an explicit state record that every function threads;
    - a call into a host service whose body is outside the file is recorded
      in a log of calls, in program order;
    - a [while] loop is a fixpoint on a fuel argument, and running out of
      fuel is an outcome of its own, never confused with a result. *)

From Stdlib Require Import ZArith Lia Ascii Sorted.
From stdpp Require Import prelude strings pretty gmap.

Set Warnings "-register-all".

(** ** JavaScript truthiness of the optional values the handlers test *)
Module JS.

(** [!!s] for [s : string | undefined]: the empty string is falsy. *)
Definition truthy_string (s : option string) : bool :=
  match s with
  | Some s => negb (String.eqb s "")
  | None => false
  end.

(** [!!b] for [b : boolean | undefined]. *)
Definition truthy_bool (b : option bool) : bool :=
  match b with
  | Some b => b
  | None => false
  end.

(** [typeof x === 'string'] for [x : string | undefined]. *)
Definition is_string (s : option string) : bool :=
  match s with Some _ => true | None => false end.

(** [a ?? b]. *)
Definition nullish {A} (a : option A) (b : A) : A :=
  match a with Some x => x | None => b end.

(** [array.sort(compare)]: the sort is stable, and for a comparator that
    orders its arguments consistently its result is that of this insertion
    sort, which keeps equal elements in their order of arrival. *)
Fixpoint sort_insert {A} (compare : A -> A -> Z) (x : A) (l : list A) : list A :=
  match l with
  | [] => [x]
  | y :: l' => if (compare x y <=? 0)%Z then x :: y :: l'
               else y :: sort_insert compare x l'
  end.

Fixpoint js_sort {A} (compare : A -> A -> Z) (l : list A) : list A :=
  match l with
  | [] => []
  | x :: l' => sort_insert compare x (js_sort compare l')
  end.

Lemma sort_insert_perm {A} (compare : A -> A -> Z) x l :
  sort_insert compare x l ≡ₚ x :: l.
Proof.
  induction l as [|y l IH]; simpl; [reflexivity|].
  destruct (compare x y <=? 0)%Z; [reflexivity|].
  rewrite IH. apply Permutation_swap.
Qed.

Lemma js_sort_perm {A} (compare : A -> A -> Z) l : js_sort compare l ≡ₚ l.
Proof.
  induction l as [|x l IH]; simpl; [reflexivity|].
  rewrite sort_insert_perm, IH. reflexivity.
Qed.

(** What [sort] promises for a comparator that orders its arguments
    consistently. [a] comes no later than [b] when [compare a b <= 0]. With
    a comparator that never puts each of two elements after the other, no
    element of the result is followed by one that belongs before it. *)
Definition noLater {A} (compare : A -> A -> Z) (a b : A) : Prop :=
  (compare a b <= 0)%Z.

Definition total {A} (compare : A -> A -> Z) : Prop :=
  forall a b, (0 < compare a b)%Z -> (compare b a <= 0)%Z.

Definition transitive {A} (compare : A -> A -> Z) : Prop :=
  forall a b c, (compare a b <= 0)%Z -> (compare b c <= 0)%Z -> (compare a c <= 0)%Z.

Lemma sort_insert_HdRel {A} (compare : A -> A -> Z) x y l :
  noLater compare y x -> HdRel (noLater compare) y l ->
  HdRel (noLater compare) y (sort_insert compare x l).
Proof.
  intros Hyx Hl. destruct l as [|z l]; simpl; [constructor; exact Hyx|].
  destruct (compare x z <=? 0)%Z; constructor; [exact Hyx|].
  inversion Hl; assumption.
Qed.

Lemma sort_insert_Sorted {A} (compare : A -> A -> Z) x l :
  total compare -> Sorted (noLater compare) l ->
  Sorted (noLater compare) (sort_insert compare x l).
Proof.
  intros Htotal. induction l as [|y l IH]; intros Hl; simpl.
  - constructor; constructor.
  - apply Sorted_inv in Hl as [Hl Hy].
    destruct (Z.leb_spec (compare x y) 0) as [Hle|Hgt].
    + constructor; [constructor; assumption|constructor; exact Hle].
    + constructor; [apply IH, Hl|].
      apply sort_insert_HdRel; [apply Htotal, Hgt|exact Hy].
Qed.

Lemma js_sort_Sorted {A} (compare : A -> A -> Z) l :
  total compare -> Sorted (noLater compare) (js_sort compare l).
Proof.
  intros Htotal. induction l as [|x l IH]; simpl; [constructor|].
  apply sort_insert_Sorted; assumption.
Qed.

(** With a comparator that is transitive as well, every element of the
    result comes no later than every element after it. *)
Lemma js_sort_StronglySorted {A} (compare : A -> A -> Z) l :
  total compare -> transitive compare ->
  StronglySorted (noLater compare) (js_sort compare l).
Proof.
  intros Htotal Htrans. apply Sorted_StronglySorted; [|apply js_sort_Sorted, Htotal].
  intros a b c. apply Htrans.
Qed.

End JS.

(** ** The web bootstrap: [create] *)
Module Workbench.

(** The [Menu] enumeration of [web.api] and the [MenuId]s of the platform,
    as far as [asMenuId] names them. *)
Inductive Menu := CommandPalette | StatusBarWindowIndicatorMenu.
Inductive MenuId := MenuId_CommandPalette | MenuId_StatusBarWindowIndicatorMenu.

Definition asMenuId (menu : Menu) : MenuId :=
  match menu with
  | CommandPalette => MenuId_CommandPalette
  | StatusBarWindowIndicatorMenu => MenuId_StatusBarWindowIndicatorMenu
  end.

(** Values that travel through command handlers. *)
Inductive Value :=
| VUndefined
| VBool (b : bool)
| VNum (z : Z)
| VStr (s : string)
| VEmptyObject.

(** [ICommand] of [web.api]: [menu?: Menu | Menu[]]. *)
Record ICommand := {
  id : string;
  label : option string;
  menu : option (Menu + list Menu);
  handler : list Value -> Value
}.

(** The fields of [IWorkbenchConstructionOptions] that [create] reads.
    [commands = None] stands for a value that is not an array. *)
Record IWorkbenchConstructionOptions := {
  commands : option (list ICommand);
  _tarballProxyEndpoints : option Value
}.

(** The services accessor handed to every registered handler. *)
Inductive ServicesAccessor := TheAccessor.

Definition ICommandHandler := ServicesAccessor -> list Value -> Value.

Record IMenuItem := { command_id : string; command_title : string }.

(** The DOM container is only passed on to [BrowserMain]. *)
Definition HTMLElement := string.

(** Modelled from the spec: the command registry, the menu registry, the
    performance marks and [BrowserMain] are host services outside the file
    (section 6 lists them as consumed interfaces). Each is the list of the
    calls made to it, oldest first. The module-level flag [created] is part
    of the same state. *)
Record State := {
  created : bool;
  marks : list string;
  commandsRegistry : list (string * ICommandHandler);
  menuRegistry : list (MenuId * IMenuItem);
  opened : list (HTMLElement * IWorkbenchConstructionOptions)
}.

Definition initial : State :=
  {| created := false; marks := []; commandsRegistry := [];
     menuRegistry := []; opened := [] |}.

Definition mark (name : string) (s : State) : State :=
  {| created := created s; marks := marks s ++ [name];
     commandsRegistry := commandsRegistry s; menuRegistry := menuRegistry s;
     opened := opened s |}.

Definition set_created (s : State) : State :=
  {| created := true; marks := marks s;
     commandsRegistry := commandsRegistry s; menuRegistry := menuRegistry s;
     opened := opened s |}.

Definition registerCommand (cid : string) (h : ICommandHandler) (s : State) : State :=
  {| created := created s; marks := marks s;
     commandsRegistry := commandsRegistry s ++ [(cid, h)];
     menuRegistry := menuRegistry s; opened := opened s |}.

Definition appendMenuItem (m : MenuId) (item : IMenuItem) (s : State) : State :=
  {| created := created s; marks := marks s;
     commandsRegistry := commandsRegistry s;
     menuRegistry := menuRegistry s ++ [(m, item)]; opened := opened s |}.

Definition openBrowserMain (d : HTMLElement) (o : IWorkbenchConstructionOptions)
    (s : State) : State :=
  {| created := created s; marks := marks s;
     commandsRegistry := commandsRegistry s; menuRegistry := menuRegistry s;
     opened := opened s ++ [(d, o)] |}.

(** [asArray(x)] of [vs/base/common/arrays]: an array is returned as it is,
    anything else becomes a singleton. *)
Definition asArray {A} (x : A + list A) : list A :=
  match x with inl a => [a] | inr l => l end.

(** The handler [create] registers for a command:
    [(accessor, ...args) => command.handler(...args)]. *)
Definition forwardingHandler (command : ICommand) : ICommandHandler :=
  fun _accessor args => handler command args.

(** The menus of the inner [for] loop: [asArray(command.menu ?? Menu.CommandPalette)]. *)
Definition menusOf (command : ICommand) : list Menu :=
  asArray (JS.nullish (menu command) (inl CommandPalette)).

(** The menu items one iteration of the outer loop appends. *)
Definition menuItemsFor (command : ICommand) : list (MenuId * IMenuItem) :=
  match label command with
  | Some l =>
      if JS.truthy_string (Some l)
      then map (fun m => (asMenuId m, {| command_id := id command; command_title := l |}))
               (menusOf command)
      else []
  | None => []
  end.

(** The body of [for (const command of options.commands)]. *)
Definition registerOne (s : State) (command : ICommand) : State :=
  let s1 := registerCommand (id command) (forwardingHandler command) s in
  match label command with
  | Some l =>
      if JS.truthy_string (Some l)
      then foldl (fun st m =>
                    appendMenuItem (asMenuId m)
                      {| command_id := id command; command_title := l |} st)
                 s1 (menusOf command)
      else s1
  | None => s1
  end.

Definition tarballHandler (options : IWorkbenchConstructionOptions) : ICommandHandler :=
  fun _ _ => JS.nullish (_tarballProxyEndpoints options) VEmptyObject.

(** What a call of [create] ends with: an exception, or the disposable. *)
Inductive Completion :=
| Threw (message : string)
| Returned.

Definition duplicateMessage : string :=
  "Unable to create the VSCode workbench more than once.".

(** [create(domElement, options)]. The continuation of [open().then] and
    the body of the returned disposable run later, on the event loop, and
    are not part of the call. *)
Definition create (domElement : HTMLElement) (options : IWorkbenchConstructionOptions)
    (s : State) : Completion * State :=
  let s := mark "code/didLoadWorkbenchMain" s in
  if created s then (Threw duplicateMessage, s)
  else
    let s := set_created s in
    let s := match commands options with
             | Some cs => foldl registerOne s cs
             | None => s
             end in
    let s := registerCommand "_workbench.getTarballProxyEndpoints"
               (tarballHandler options) s in
    let s := openBrowserMain domElement options s in
    (Returned, s).

(** *** Properties of [create] *)

Lemma registerOne_created s c : created (registerOne s c) = created s.
Proof.
  unfold registerOne. destruct (label c) as [l|]; [|reflexivity].
  destruct (JS.truthy_string (Some l)); [|reflexivity].
  assert (G : forall ms st, created (foldl (fun st m =>
             appendMenuItem (asMenuId m)
               {| command_id := id c; command_title := l |} st) st ms)
             = created st).
  { induction ms as [|m ms IH]; intros st; simpl; [reflexivity|].
    rewrite IH. reflexivity. }
  rewrite G. reflexivity.
Qed.

Lemma foldl_registerOne_created cs s :
  created (foldl registerOne s cs) = created s.
Proof.
  revert s. induction cs as [|c cs IH]; intros s; simpl; [reflexivity|].
  rewrite IH. apply registerOne_created.
Qed.

(** C1. A call of [create] made when the flag [created] is already set
    throws the duplicate-workbench error, registers no command, appends no
    menu item and starts no workbench; a call made while the flag is clear
    does not throw and leaves the flag set. *)
Theorem create_only_once (domElement : HTMLElement)
    (options : IWorkbenchConstructionOptions) (s : State) :
  (created s = true ->
     fst (create domElement options s) = Threw duplicateMessage /\
     commandsRegistry (snd (create domElement options s)) = commandsRegistry s /\
     menuRegistry (snd (create domElement options s)) = menuRegistry s /\
     opened (snd (create domElement options s)) = opened s /\
     created (snd (create domElement options s)) = true) /\
  (created s = false ->
     fst (create domElement options s) = Returned /\
     created (snd (create domElement options s)) = true).
Proof.
  split; intros Hc; unfold create; simpl; rewrite Hc; simpl.
  - repeat split; assumption.
  - split; [reflexivity|].
    destruct (commands options) as [cs|]; simpl; [|reflexivity].
    rewrite foldl_registerOne_created. reflexivity.
Qed.

Lemma registerOne_commands s c :
  commandsRegistry (registerOne s c)
  = commandsRegistry s ++ [(id c, forwardingHandler c)].
Proof.
  unfold registerOne. destruct (label c) as [l|]; [|reflexivity].
  destruct (JS.truthy_string (Some l)); [|reflexivity].
  generalize (menusOf c) as ms.
  assert (G : forall ms st, commandsRegistry (foldl (fun st m =>
             appendMenuItem (asMenuId m)
               {| command_id := id c; command_title := l |} st) st ms)
             = commandsRegistry st).
  { induction ms as [|m ms IH]; intros st; simpl; [reflexivity|].
    rewrite IH. reflexivity. }
  intros ms. rewrite G. reflexivity.
Qed.

Lemma registerOne_menus s c :
  menuRegistry (registerOne s c) = menuRegistry s ++ menuItemsFor c.
Proof.
  unfold registerOne, menuItemsFor. destruct (label c) as [l|].
  2: { simpl. rewrite app_nil_r. reflexivity. }
  destruct (JS.truthy_string (Some l)).
  2: { simpl. rewrite app_nil_r. reflexivity. }
  generalize (menusOf c) as ms.
  assert (G : forall ms st, menuRegistry (foldl (fun st m =>
             appendMenuItem (asMenuId m)
               {| command_id := id c; command_title := l |} st) st ms)
             = menuRegistry st
               ++ map (fun m => (asMenuId m,
                                 {| command_id := id c; command_title := l |})) ms).
  { induction ms as [|m ms IH]; intros st; simpl.
    - rewrite app_nil_r. reflexivity.
    - rewrite IH. simpl. rewrite <- app_assoc. reflexivity. }
  intros ms. rewrite G. reflexivity.
Qed.

Lemma foldl_registerOne_commands cs s :
  commandsRegistry (foldl registerOne s cs)
  = commandsRegistry s ++ map (fun c => (id c, forwardingHandler c)) cs.
Proof.
  revert s. induction cs as [|c cs IH]; intros s; simpl.
  - rewrite app_nil_r. reflexivity.
  - rewrite IH, registerOne_commands, <- app_assoc. reflexivity.
Qed.

Lemma foldl_registerOne_menus cs s :
  menuRegistry (foldl registerOne s cs)
  = menuRegistry s ++ concat (map menuItemsFor cs).
Proof.
  revert s. induction cs as [|c cs IH]; intros s; simpl.
  - rewrite app_nil_r. reflexivity.
  - rewrite IH, registerOne_menus, <- app_assoc. reflexivity.
Qed.

(** A command that carries a label and an empty array of menus. *)
Definition helloCommand : ICommand :=
  {| id := "demo.hello"; label := Some "Say hello"; menu := Some (inr []);
     handler := fun args => VNum (Z.of_nat (length args)) |}.

Definition helloOptions : IWorkbenchConstructionOptions :=
  {| commands := Some [helloCommand]; _tarballProxyEndpoints := None |}.

(** Commands of every shape the loop tells apart: a label and no menu, a
    label and one menu, a label and an array that names a menu twice, a
    label and an empty array, no label, and an empty label. *)
Definition echo (args : list Value) : Value := VNum (Z.of_nat (length args)).

Definition paletteCommand : ICommand :=
  {| id := "demo.palette"; label := Some "Palette"; menu := None; handler := echo |}.

Definition statusCommand : ICommand :=
  {| id := "demo.status"; label := Some "Status";
     menu := Some (inl StatusBarWindowIndicatorMenu); handler := echo |}.

Definition bothCommand : ICommand :=
  {| id := "demo.both"; label := Some "Both";
     menu := Some (inr [StatusBarWindowIndicatorMenu; CommandPalette;
                        StatusBarWindowIndicatorMenu]);
     handler := echo |}.

Definition hiddenCommand : ICommand :=
  {| id := "demo.hidden"; label := None;
     menu := Some (inl StatusBarWindowIndicatorMenu); handler := echo |}.

Definition blankCommand : ICommand :=
  {| id := "demo.blank"; label := Some ""; menu := None; handler := echo |}.

Definition demoCommands : list ICommand :=
  [paletteCommand; statusCommand; bothCommand; helloCommand; hiddenCommand;
   blankCommand].

Definition demoOptions : IWorkbenchConstructionOptions :=
  {| commands := Some demoCommands; _tarballProxyEndpoints := Some (VStr "proxy") |}.

(** C4, as stated, fails: [helloCommand] has a label, yet the inner loop
    runs over its empty array of menus and no menu item names it once
    [create] has run. *)
Lemma create_label_but_no_menu_item :
  ~ (is_Some (label helloCommand) <->
     exists (m : MenuId) (item : IMenuItem),
       ((m, item) ∈ menuRegistry (snd (create "body" helloOptions initial))) /\
       command_id item = id helloCommand).
Proof.
  intros [H _].
  destruct (H (ex_intro _ "Say hello" eq_refl)) as (m & item & Hin & _).
  vm_compute in Hin. inversion Hin.
Qed.

(** C4, amended. On a first call of [create] with an array of commands,
    the command registry receives, in order, one entry per command, under
    the command's id and with a handler that passes on its arguments
    without the accessor, followed by the tarball entry; the menu registry
    receives, for each command in order, the items of that command. For a
    command whose label is a non-empty string these are one item per menu
    the command specifies, in the order given and with repetitions: one
    item for a single menu, one per entry for an array, none for an empty
    array, and one command-palette item when it specifies no menu; each
    item carries the command's id and its label, under the menu id of the
    same name as the menu. A command without a label, or with the empty
    string as label, gets no item, whatever its menus. *)
Theorem create_registers_commands (domElement : HTMLElement)
    (options : IWorkbenchConstructionOptions) (cs : list ICommand) (s : State) :
  created s = false ->
  commands options = Some cs ->
  commandsRegistry (snd (create domElement options s))
    = commandsRegistry s
      ++ map (fun c => (id c, forwardingHandler c)) cs
      ++ [("_workbench.getTarballProxyEndpoints", tarballHandler options)] /\
  (forall c accessor args, forwardingHandler c accessor args = handler c args) /\
  menuRegistry (snd (create domElement options s))
    = menuRegistry s ++ concat (map menuItemsFor cs) /\
  (forall c (m : MenuId) (item : IMenuItem),
     ((m, item) ∈ menuItemsFor c) <->
     exists l mn, label c = Some l /\ l <> "" /\ (mn ∈ menusOf c) /\
                  m = asMenuId mn /\
                  item = {| command_id := id c; command_title := l |}) /\
  (forall c, menu c = None -> menusOf c = [CommandPalette]) /\
  (forall c l, label c = Some l -> l <> "" -> menu c = None ->
     menuItemsFor c
     = [(MenuId_CommandPalette, {| command_id := id c; command_title := l |})]) /\
  (forall c l mn, label c = Some l -> l <> "" -> menu c = Some (inl mn) ->
     menuItemsFor c
     = [(asMenuId mn, {| command_id := id c; command_title := l |})]) /\
  (forall c l mns, label c = Some l -> l <> "" -> menu c = Some (inr mns) ->
     menuItemsFor c
     = map (fun mn => (asMenuId mn, {| command_id := id c; command_title := l |}))
           mns) /\
  (forall c, menu c = Some (inr []) -> menuItemsFor c = []) /\
  (forall c, label c = None \/ label c = Some "" -> menuItemsFor c = []) /\
  asMenuId CommandPalette = MenuId_CommandPalette /\
  asMenuId StatusBarWindowIndicatorMenu = MenuId_StatusBarWindowIndicatorMenu.
Proof.
  intros Hc Hcs. unfold create. simpl. rewrite Hc, Hcs. simpl.
  rewrite foldl_registerOne_commands, foldl_registerOne_menus. simpl.
  assert (Hlabelled : forall c l, label c = Some l -> l <> "" ->
            menuItemsFor c
            = map (fun mn => (asMenuId mn,
                              {| command_id := id c; command_title := l |}))
                  (menusOf c)).
  { intros c l Hl Hne. unfold menuItemsFor. rewrite Hl. unfold JS.truthy_string.
    destruct (String.eqb_spec l "") as [He|_]; [contradiction|reflexivity]. }
  split; [rewrite <- app_assoc; reflexivity|].
  split; [reflexivity|].
  split; [reflexivity|].
  split.
  { intros c m item. unfold menuItemsFor.
    destruct (label c) as [l|] eqn:Hl.
    + unfold JS.truthy_string.
      destruct (String.eqb_spec l "") as [He|Hne]; simpl.
      * split; [intros Hin; inversion Hin|].
        intros (l' & mn & Hl' & Hne & _). congruence.
      * rewrite list_elem_of_fmap. split.
        -- intros (mn & Heq & Hin). inversion Heq; subst.
           exists l, mn. repeat split; assumption.
        -- intros (l' & mn & Hl' & _ & Hin & -> & ->).
           inversion Hl'; subst. exists mn. split; [reflexivity|assumption].
    + split; [intros Hin; inversion Hin|].
      intros (l' & mn & Hl' & _). congruence. }
  split. { intros c Hm. unfold menusOf. rewrite Hm. reflexivity. }
  split. { intros c l Hl Hne Hm. rewrite (Hlabelled c l Hl Hne). unfold menusOf.
           rewrite Hm. reflexivity. }
  split. { intros c l mn Hl Hne Hm. rewrite (Hlabelled c l Hl Hne). unfold menusOf.
           rewrite Hm. reflexivity. }
  split. { intros c l mns Hl Hne Hm. rewrite (Hlabelled c l Hl Hne). unfold menusOf.
           rewrite Hm. reflexivity. }
  split. { intros c Hm. unfold menuItemsFor, menusOf. rewrite Hm. simpl.
           destruct (label c) as [l|]; [|reflexivity].
           destruct (negb (String.eqb l "")); reflexivity. }
  split. { intros c [Hl|Hl]; unfold menuItemsFor; rewrite Hl; reflexivity. }
  split; reflexivity.
Qed.

(** The sample commands: every command is registered, in order, with a
    handler that answers as the command's own (the accessor is dropped);
    the command without a menu is in the palette, the one with the status
    bar menu is there once, the one with an array is in each menu of the
    array as often as the array names it, and the commands with an empty
    array, without a label or with an empty label are in no menu. *)
Lemma create_registers_commands_witness :
  created initial = false /\
  commands demoOptions = Some demoCommands /\
  map fst (commandsRegistry (snd (create "body" demoOptions initial)))
    = ["demo.palette"; "demo.status"; "demo.both"; "demo.hello"; "demo.hidden";
       "demo.blank"; "_workbench.getTarballProxyEndpoints"] /\
  map (fun entry => snd entry TheAccessor [VBool true; VNum 7])
      (commandsRegistry (snd (create "body" demoOptions initial)))
    = [VNum 2; VNum 2; VNum 2; VNum 2; VNum 2; VNum 2; VStr "proxy"] /\
  menuRegistry (snd (create "body" demoOptions initial))
    = [ (MenuId_CommandPalette,
         {| command_id := "demo.palette"; command_title := "Palette" |});
        (MenuId_StatusBarWindowIndicatorMenu,
         {| command_id := "demo.status"; command_title := "Status" |});
        (MenuId_StatusBarWindowIndicatorMenu,
         {| command_id := "demo.both"; command_title := "Both" |});
        (MenuId_CommandPalette,
         {| command_id := "demo.both"; command_title := "Both" |});
        (MenuId_StatusBarWindowIndicatorMenu,
         {| command_id := "demo.both"; command_title := "Both" |}) ].
Proof.
  destruct (create_registers_commands "body" demoOptions demoCommands initial
              eq_refl eq_refl)
    as (Hcommands & _ & Hmenus & _ & _ & Hnone & Hone & Hmany & Hempty & Hnolabel & _).
  split; [reflexivity|]. split; [reflexivity|].
  rewrite Hcommands, Hmenus.
  split; [reflexivity|]. split; [reflexivity|].
  unfold demoCommands. cbn [map concat].
  rewrite (Hnone paletteCommand "Palette" eq_refl ltac:(discriminate) eq_refl).
  rewrite (Hone statusCommand "Status" StatusBarWindowIndicatorMenu
             eq_refl ltac:(discriminate) eq_refl).
  rewrite (Hmany bothCommand "Both" _ eq_refl ltac:(discriminate) eq_refl).
  rewrite (Hempty helloCommand eq_refl).
  rewrite (Hnolabel hiddenCommand (or_introl eq_refl)).
  rewrite (Hnolabel blankCommand (or_intror eq_refl)).
  reflexivity.
Defined.

(** Two calls in a row on concrete options: the first returns, the second
    throws and leaves both registries as the first call left them. *)
Example create_twice :
  let r1 := create "body" helloOptions initial in
  let r2 := create "body" helloOptions (snd r1) in
  fst r1 = Returned /\ fst r2 = Threw duplicateMessage /\
  map fst (commandsRegistry (snd r2))
    = ["demo.hello"; "_workbench.getTarballProxyEndpoints"] /\
  opened (snd r2) = [("body", helloOptions)].
Proof. repeat split. Qed.

(** *** A series of calls *)

(** Calls of [create] one after the other, each on the state the one
    before left. *)
Fixpoint createAll (calls : list (HTMLElement * IWorkbenchConstructionOptions))
    (s : State) : list Completion * State :=
  match calls with
  | [] => ([], s)
  | (d, o) :: rest =>
      let r := create d o s in
      let rs := createAll rest (snd r) in
      (fst r :: fst rs, snd rs)
  end.

Lemma createAll_created calls s :
  created s = true ->
  fst (createAll calls s) = replicate (length calls) (Threw duplicateMessage) /\
  commandsRegistry (snd (createAll calls s)) = commandsRegistry s /\
  menuRegistry (snd (createAll calls s)) = menuRegistry s /\
  opened (snd (createAll calls s)) = opened s /\
  created (snd (createAll calls s)) = true /\
  length (marks (snd (createAll calls s))) = length (marks s) + length calls.
Proof.
  revert s. induction calls as [|[d o] rest IH]; intros s Hc; simpl.
  { repeat split; [assumption|lia]. }
  assert (Hstep : create d o s = (Threw duplicateMessage, mark "code/didLoadWorkbenchMain" s)).
  { unfold create. simpl. rewrite Hc. reflexivity. }
  rewrite Hstep. simpl.
  destruct (IH (mark "code/didLoadWorkbenchMain" s) Hc)
    as (H1 & H2 & H3 & H4 & H5 & H6).
  rewrite H1, H2, H3, H4, H5, H6. simpl. rewrite length_app. simpl.
  repeat split. lia.
Qed.

Lemma registerOne_opened_marks s c :
  opened (registerOne s c) = opened s /\ marks (registerOne s c) = marks s.
Proof.
  unfold registerOne. destruct (label c) as [l|]; [|split; reflexivity].
  destruct (JS.truthy_string (Some l)); [|split; reflexivity].
  assert (G : forall ms st,
             opened (foldl (fun st m =>
               appendMenuItem (asMenuId m)
                 {| command_id := id c; command_title := l |} st) st ms) = opened st /\
             marks (foldl (fun st m =>
               appendMenuItem (asMenuId m)
                 {| command_id := id c; command_title := l |} st) st ms) = marks st).
  { induction ms as [|m ms IH]; intros st; simpl; [split; reflexivity|].
    destruct (IH (appendMenuItem (asMenuId m)
                    {| command_id := id c; command_title := l |} st)) as [-> ->].
    split; reflexivity. }
  destruct (G (menusOf c) (registerCommand (id c) (forwardingHandler c) s)) as [-> ->].
  split; reflexivity.
Qed.

Lemma foldl_registerOne_opened_marks cs s :
  opened (foldl registerOne s cs) = opened s /\
  marks (foldl registerOne s cs) = marks s.
Proof.
  revert s. induction cs as [|c cs IH]; intros s; simpl; [split; reflexivity|].
  destruct (IH (registerOne s c)) as [-> ->]. apply registerOne_opened_marks.
Qed.

(** X1. Of a series of calls that starts with the flag clear, only the first
    takes effect: it returns, every later call throws the duplicate error,
    one workbench is opened, for the first call, and the two registries
    are as the first call left them; every call leaves a performance
    mark. *)
Theorem create_series_first_call_only (d : HTMLElement)
    (o : IWorkbenchConstructionOptions)
    (rest : list (HTMLElement * IWorkbenchConstructionOptions)) (s : State) :
  created s = false ->
  fst (createAll ((d, o) :: rest) s)
    = Returned :: replicate (length rest) (Threw duplicateMessage) /\
  opened (snd (createAll ((d, o) :: rest) s)) = opened s ++ [(d, o)] /\
  commandsRegistry (snd (createAll ((d, o) :: rest) s))
    = commandsRegistry (snd (create d o s)) /\
  menuRegistry (snd (createAll ((d, o) :: rest) s))
    = menuRegistry (snd (create d o s)) /\
  length (marks (snd (createAll ((d, o) :: rest) s)))
    = length (marks s) + 1 + length rest.
Proof.
  intros Hc. simpl.
  assert (Hfirst : fst (create d o s) = Returned /\
                   created (snd (create d o s)) = true /\
                   opened (snd (create d o s)) = opened s ++ [(d, o)] /\
                   marks (snd (create d o s)) = marks s ++ ["code/didLoadWorkbenchMain"]).
  { unfold create. simpl. rewrite Hc. simpl.
    destruct (commands o) as [cs|]; simpl; [|repeat split].
    rewrite foldl_registerOne_created.
    destruct (foldl_registerOne_opened_marks cs
                (set_created (mark "code/didLoadWorkbenchMain" s))) as [-> ->].
    repeat split. }
  destruct Hfirst as (Hr & Hcr & Hop & Hmk).
  destruct (createAll_created rest (snd (create d o s)) Hcr)
    as (H1 & H2 & H3 & H4 & _ & H6).
  rewrite Hr, H1, H2, H3, H4, H6, Hop, Hmk, length_app. simpl.
  repeat split; lia.
Qed.

Lemma create_series_first_call_only_witness :
  fst (createAll (("body", helloOptions) :: [("body", helloOptions); ("main", helloOptions)])
         initial)
    = Returned :: replicate 2 (Threw duplicateMessage) /\
  opened (snd (createAll (("body", helloOptions)
                          :: [("body", helloOptions); ("main", helloOptions)]) initial))
    = opened initial ++ [("body", helloOptions)] /\
  commandsRegistry (snd (createAll (("body", helloOptions)
                          :: [("body", helloOptions); ("main", helloOptions)]) initial))
    = commandsRegistry (snd (create "body" helloOptions initial)) /\
  menuRegistry (snd (createAll (("body", helloOptions)
                          :: [("body", helloOptions); ("main", helloOptions)]) initial))
    = menuRegistry (snd (create "body" helloOptions initial)) /\
  length (marks (snd (createAll (("body", helloOptions)
                          :: [("body", helloOptions); ("main", helloOptions)]) initial)))
    = length (marks initial) + 1 + 2.
Proof.
  apply (create_series_first_call_only "body" helloOptions
           [("body", helloOptions); ("main", helloOptions)] initial).
  reflexivity.
Defined.

End Workbench.

(** ** [FindInFilesCommand] *)
Module FindInFiles.

(** [IFindInFilesArgs]: every field is optional. *)
Record IFindInFilesArgs := {
  query : option string;
  replace : option string;
  preserveCase : option bool;
  triggerSearch : option bool;
  filesToInclude : option string;
  filesToExclude : option string;
  isRegex : option bool;
  isCaseSensitive : option bool;
  matchWholeWord : option bool;
  useExcludeSettingsAndIgnoreFiles : option bool;
  onlyOpenEditors : option bool
}.

(** The values of the setting [search.mode]. *)
Inductive SearchMode := view | reuseEditor | newEditor.

Inductive EditorLocation := new | reuse.

(** The fields of [OpenSearchEditorArgs] that [convertArgs] sets. *)
Record OpenSearchEditorArgs := {
  o_location : EditorLocation;
  o_query : option string;
  o_filesToInclude : option string;
  o_filesToExclude : option string;
  o_matchWholeWord : option bool;
  o_isCaseSensitive : option bool;
  o_isRegexp : option bool;
  o_useExcludeSettingsAndIgnoreFiles : option bool;
  o_onlyOpenEditors : option bool;
  o_showIncludesExcludes : bool
}.

(** The calls the handler makes into the host, in program order. The calls
    on the opened view belong to the [then] continuation of [openSearchView]
    and are listed when the host reports an opened view. *)
Inductive HostCall :=
| OpenSearchView (focus : bool)
| ToggleReplace (show : bool)
| SetSearchParameters (args : IFindInFilesArgs)
| UpdateTextFromFindWidgetOrSelection (allowUnselectedWord : bool)
| FocusSearchWidget (select : bool) (focusReplace : bool)
| ExecuteCommand (commandId : string) (args : OpenSearchEditorArgs).

(** What the handler reads from the host: the configured mode, whether
    [openView] yields a view, and the boolean that
    [updateTextFromFindWidgetOrSelection] answers. *)
Record Host := {
  mode : SearchMode;
  viewOpens : bool;
  textUpdated : bool
}.

Definition OpenEditorCommandId : string := "search.action.openEditor".

(** [convertArgs], the arrow function of the [else] branch. The operand
    [args.filesToExclude] occurs twice in the source expression. *)
Definition convertArgs (m : SearchMode) (args : IFindInFilesArgs) : OpenSearchEditorArgs :=
  {| o_location := match m with newEditor => new | _ => reuse end;
     o_query := query args;
     o_filesToInclude := filesToInclude args;
     o_filesToExclude := filesToExclude args;
     o_matchWholeWord := matchWholeWord args;
     o_isCaseSensitive := isCaseSensitive args;
     o_isRegexp := isRegex args;
     o_useExcludeSettingsAndIgnoreFiles := useExcludeSettingsAndIgnoreFiles args;
     o_onlyOpenEditors := onlyOpenEditors args;
     o_showIncludesExcludes :=
       JS.truthy_string (filesToExclude args)
       || JS.truthy_string (filesToExclude args)
       || negb (JS.truthy_bool (useExcludeSettingsAndIgnoreFiles args)) |}.

Definition FindInFilesCommand (h : Host) (args : IFindInFilesArgs) : list HostCall :=
  match mode h with
  | view =>
      OpenSearchView false ::
      (if viewOpens h then
         ToggleReplace (JS.is_string (replace args)) ::
         (if JS.is_string (query args)
          then [SetSearchParameters args; FocusSearchWidget false false]
          else [UpdateTextFromFindWidgetOrSelection (negb (JS.is_string (replace args)));
                FocusSearchWidget (textUpdated h) (textUpdated h)])
       else [])
  | m => [ExecuteCommand OpenEditorCommandId (convertArgs m args)]
  end.

(** [args] with another value in [filesToInclude] and nothing else changed. *)
Definition with_filesToInclude (v : option string) (args : IFindInFilesArgs) : IFindInFilesArgs :=
  {| query := query args; replace := replace args;
     preserveCase := preserveCase args; triggerSearch := triggerSearch args;
     filesToInclude := v; filesToExclude := filesToExclude args;
     isRegex := isRegex args; isCaseSensitive := isCaseSensitive args;
     matchWholeWord := matchWholeWord args;
     useExcludeSettingsAndIgnoreFiles := useExcludeSettingsAndIgnoreFiles args;
     onlyOpenEditors := onlyOpenEditors args |}.

(** The [showIncludesExcludes] flags of the arguments the handler forwards
    to the open-search-editor command. *)
Definition forwardedFlags (calls : list HostCall) : list bool :=
  omap (fun c => match c with
                 | ExecuteCommand _ a => Some (o_showIncludesExcludes a)
                 | _ => None
                 end) calls.

(** C9. When the mode is not [view], the handler forwards exactly one
    argument record to the open-search-editor command; its
    [showIncludesExcludes] is [!!(filesToExclude || !useExcludeSettingsAndIgnoreFiles)],
    and replacing [filesToInclude] by any other value leaves it the same. *)
Theorem showIncludesExcludes_ignores_filesToInclude (h : Host)
    (args : IFindInFilesArgs) (other : option string) :
  mode h <> view ->
  FindInFilesCommand h args
    = [ExecuteCommand OpenEditorCommandId (convertArgs (mode h) args)] /\
  forwardedFlags (FindInFilesCommand h args)
    = [JS.truthy_string (filesToExclude args)
       || negb (JS.truthy_bool (useExcludeSettingsAndIgnoreFiles args))] /\
  forwardedFlags (FindInFilesCommand h (with_filesToInclude other args))
    = forwardedFlags (FindInFilesCommand h args).
Proof.
  intros Hm. unfold FindInFilesCommand.
  destruct (mode h) eqn:E; [congruence| |]; simpl;
    (split; [reflexivity|]); (split; [|reflexivity]);
    rewrite orb_diag; reflexivity.
Qed.

Definition sampleArgs : IFindInFilesArgs :=
  {| query := Some "todo"; replace := None; preserveCase := None;
     triggerSearch := Some true; filesToInclude := Some "src/**";
     filesToExclude := None; isRegex := None; isCaseSensitive := None;
     matchWholeWord := None; useExcludeSettingsAndIgnoreFiles := Some true;
     onlyOpenEditors := None |}.

Definition editorHost : Host :=
  {| mode := newEditor; viewOpens := true; textUpdated := false |}.

Lemma showIncludesExcludes_ignores_filesToInclude_witness :
  FindInFilesCommand editorHost sampleArgs
    = [ExecuteCommand OpenEditorCommandId (convertArgs (mode editorHost) sampleArgs)] /\
  forwardedFlags (FindInFilesCommand editorHost sampleArgs)
    = [JS.truthy_string (filesToExclude sampleArgs)
       || negb (JS.truthy_bool (useExcludeSettingsAndIgnoreFiles sampleArgs))] /\
  forwardedFlags (FindInFilesCommand editorHost (with_filesToInclude None sampleArgs))
    = forwardedFlags (FindInFilesCommand editorHost sampleArgs).
Proof.
  apply (showIncludesExcludes_ignores_filesToInclude editorHost sampleArgs None).
  discriminate.
Defined.

(** With an include pattern and the exclude settings in use, the forwarded
    flag is [false]: the include pattern does not raise it. *)
Example include_pattern_is_not_shown :
  forwardedFlags (FindInFilesCommand editorHost sampleArgs) = [false].
Proof. reflexivity. Qed.

(** *** The two ways of the handler *)

(** [args] with other values in the three fields that only the search
    view reads and nothing else changed. *)
Definition with_view_fields (r : option string) (p t : option bool)
    (args : IFindInFilesArgs) : IFindInFilesArgs :=
  {| query := query args; replace := r;
     preserveCase := p; triggerSearch := t;
     filesToInclude := filesToInclude args; filesToExclude := filesToExclude args;
     isRegex := isRegex args; isCaseSensitive := isCaseSensitive args;
     matchWholeWord := matchWholeWord args;
     useExcludeSettingsAndIgnoreFiles := useExcludeSettingsAndIgnoreFiles args;
     onlyOpenEditors := onlyOpenEditors args |}.

Definition isExecuteCommand (c : HostCall) : bool :=
  match c with ExecuteCommand _ _ => true | _ => false end.

(** X2. The handler goes one of two ways, by the mode alone. In the mode
    [view] it opens the search view, does nothing more when no view comes
    back, and never executes the open-search-editor command. In the two
    other modes it executes that command once and does nothing else, asks
    for a new editor exactly in the mode [newEditor], and hands on the
    query and the include and exclude patterns as given. *)
Theorem FindInFilesCommand_view_or_editor (h : Host) (args : IFindInFilesArgs) :
  (mode h = view ->
     head (FindInFilesCommand h args) = Some (OpenSearchView false) /\
     forallb (fun c => negb (isExecuteCommand c)) (FindInFilesCommand h args) = true /\
     (viewOpens h = false -> FindInFilesCommand h args = [OpenSearchView false])) /\
  (mode h <> view ->
     exists a, FindInFilesCommand h args = [ExecuteCommand OpenEditorCommandId a] /\
       (o_location a = new <-> mode h = newEditor) /\
       o_query a = query args /\
       o_filesToInclude a = filesToInclude args /\
       o_filesToExclude a = filesToExclude args).
Proof.
  unfold FindInFilesCommand. split; intros Hm.
  - rewrite Hm. split; [reflexivity|]. split.
    + destruct (viewOpens h); [|reflexivity].
      destruct (JS.is_string (query args)); reflexivity.
    + intros ->. reflexivity.
  - destruct (mode h) eqn:E; [congruence| |]; eexists;
      (split; [reflexivity|]); simpl; (split; [|auto]);
      split; congruence.
Qed.

(** X3. In the two editor modes the fields [replace], [preserveCase] and
    [triggerSearch] of the arguments are dropped: whatever they hold, the
    same call is made. *)
Theorem FindInFilesCommand_editor_drops_view_fields (h : Host)
    (args : IFindInFilesArgs) (r : option string) (p t : option bool) :
  mode h <> view ->
  FindInFilesCommand h (with_view_fields r p t args) = FindInFilesCommand h args.
Proof.
  intros Hm. unfold FindInFilesCommand.
  destruct (mode h); [congruence| |]; reflexivity.
Qed.

Lemma FindInFilesCommand_editor_drops_view_fields_witness :
  FindInFilesCommand editorHost
    (with_view_fields (Some "done") (Some true) None sampleArgs)
  = FindInFilesCommand editorHost sampleArgs.
Proof.
  apply (FindInFilesCommand_editor_drops_view_fields editorHost sampleArgs
           (Some "done") (Some true) None).
  discriminate.
Defined.

End FindInFiles.

(** ** Labels with keybindings, and the search-on-type toggle *)
Module Labels.

(** A resolved keybinding, as far as the file reads it: [getLabel()],
    which answers a string or [null]. *)
Record ResolvedKeybinding := { getLabel : option string }.

(** [inputKeyBinding: number | ResolvedKeybinding | undefined]. *)
Inductive KeyBindingInput :=
| KNumber (n : Z)
| KResolved (k : ResolvedKeybinding)
| KUndefined.

(** [label + ' (' + keyBinding.getLabel() + ')']: a [null] label is
    concatenated as the text [null]. *)
Definition doAppendKeyBindingLabel (label : string) (keyBinding : option ResolvedKeybinding)
    : string :=
  match keyBinding with
  | Some k => label +:+ " (" +:+ JS.nullish (getLabel k) "null" +:+ ")"
  | None => label
  end.

Section Append.

(** The host: [createKeybinding(n, OS)], which may answer [null], and the
    keybinding service. *)
Variable Keybinding : Type.
Variable createKeybinding : Z -> option Keybinding.
Variable resolveKeybinding : Keybinding -> list ResolvedKeybinding.

Definition appendKeyBindingLabel (label : string) (inputKeyBinding : KeyBindingInput)
    : string :=
  match inputKeyBinding with
  | KNumber n =>
      match createKeybinding n with
      | Some keybinding =>
          let resolvedKeybindings := resolveKeybinding keybinding in
          doAppendKeyBindingLabel label (head resolvedKeybindings)
      | None => doAppendKeyBindingLabel label None
      end
  | KResolved k => doAppendKeyBindingLabel label (Some k)
  | KUndefined => doAppendKeyBindingLabel label None
  end.

Lemma length_of_append (s t : string) :
  String.length (s +:+ t) = String.length s + String.length t.
Proof. induction s as [|c s IH]; simpl; [reflexivity|]. rewrite IH. reflexivity. Qed.

Lemma doAppend_Some_longer label k :
  doAppendKeyBindingLabel label (Some k) <> label.
Proof.
  intros Heq. apply (f_equal String.length) in Heq. simpl in Heq.
  rewrite !length_of_append in Heq. simpl in Heq. lia.
Qed.

(** X4. The label comes back unchanged exactly when no keybinding is there to
    show: the input is [undefined], or a number for which no keybinding is
    created, or one that resolves to none. Otherwise the result is the
    label followed by the label of the keybinding in parentheses, and of
    the keybindings a number resolves to only the first is shown. *)
Theorem appendKeyBindingLabel_cases (label : string) (input : KeyBindingInput) :
  (appendKeyBindingLabel label input = label <->
     input = KUndefined \/
     exists n, input = KNumber n /\
       (createKeybinding n = None \/
        exists kb, createKeybinding n = Some kb /\ resolveKeybinding kb = [])) /\
  (appendKeyBindingLabel label input <> label ->
     exists k, appendKeyBindingLabel label input
               = label +:+ " (" +:+ JS.nullish (getLabel k) "null" +:+ ")" /\
       (input = KResolved k \/
        exists n kb rest, input = KNumber n /\ createKeybinding n = Some kb /\
                          resolveKeybinding kb = k :: rest)).
Proof.
  unfold appendKeyBindingLabel.
  destruct input as [n|k|].
  - destruct (createKeybinding n) as [kb|] eqn:Hc.
    + destruct (resolveKeybinding kb) as [|k rest] eqn:Hr; simpl.
      * split; [|congruence]. split; [|reflexivity].
        intros _. right. exists n. split; [reflexivity|]. right. eauto.
      * split.
        -- split.
           ++ intros Heq. elim (doAppend_Some_longer label k Heq).
           ++ intros [Hu|(n' & Hn & [Hnone|(kb' & Hkb & Hnil)])]; try discriminate;
                injection Hn as <-; congruence.
        -- intros _. exists k. split; [reflexivity|]. right. eauto 10.
    + simpl. split; [|congruence]. split; [|reflexivity].
      intros _. right. exists n. eauto.
  - simpl. split.
    + split.
      * intros Heq. elim (doAppend_Some_longer label k Heq).
      * intros [Hu|(n' & Hn & _)]; discriminate.
    + intros _. exists k. eauto.
  - simpl. split; [|congruence]. split; [|reflexivity]. eauto.
Qed.

End Append.

(** A number that resolves to two keybindings: the first is shown. *)
Example appendKeyBindingLabel_first_of_two :
  appendKeyBindingLabel unit (fun _ => Some tt)
    (fun _ => [ {| getLabel := Some "Ctrl+Shift+1" |}; {| getLabel := Some "F4" |} ])
    "Dismiss" (KNumber 2081)
  = "Dismiss (Ctrl+Shift+1)".
Proof. reflexivity. Qed.

(** [ToggleSearchOnTypeAction.searchOnTypeKey]. *)
Definition searchOnTypeKey : string := "search.searchOnType".

(** Modelled from the spec: the configuration service, a host service
    outside the file, is the map from keys to the booleans it holds;
    [getValue] looks a key up ([undefined] when the map has none) and
    [updateValue] stores a value under a key. On it,
    [ToggleSearchOnTypeAction.run]: *)
Definition ToggleSearchOnTypeAction_run (config : gmap string bool) : gmap string bool :=
  let searchOnType := config !! searchOnTypeKey in
  <[searchOnTypeKey := negb (JS.truthy_bool searchOnType)]> config.

(** X5. One run stores the negation of the setting, an unset setting counting
    as [false], and touches no other key; two runs put a setting that was
    set back to what it was, and leave one that was unset set to [false]. *)
Theorem ToggleSearchOnTypeAction_twice (config : gmap string bool) :
  ToggleSearchOnTypeAction_run config !! searchOnTypeKey
    = Some (negb (JS.truthy_bool (config !! searchOnTypeKey))) /\
  (forall k, k <> searchOnTypeKey ->
     ToggleSearchOnTypeAction_run config !! k = config !! k) /\
  (is_Some (config !! searchOnTypeKey) ->
     ToggleSearchOnTypeAction_run (ToggleSearchOnTypeAction_run config) = config) /\
  (config !! searchOnTypeKey = None ->
     ToggleSearchOnTypeAction_run (ToggleSearchOnTypeAction_run config)
     = <[searchOnTypeKey := false]> config).
Proof.
  unfold ToggleSearchOnTypeAction_run.
  split; [apply lookup_insert_eq|].
  split; [intros k Hk; apply lookup_insert_ne; congruence|].
  rewrite lookup_insert_eq, insert_insert_eq. simpl. rewrite negb_involutive.
  split.
  - intros [b Hb]. rewrite Hb. simpl. apply insert_id, Hb.
  - intros ->. reflexivity.
Qed.

End Labels.

(** ** Copying search results to the clipboard and the option toggles *)
Module Clipboard.

Definition URI := string.

(** The fields of the editor [Range] the handlers read. *)
Record Range := {
  startLineNumber : Z;
  startColumn : Z;
  endLineNumber : Z;
  endColumn : Z
}.

(** A line match, with the two accessors [matchToString] calls. *)
Record Match := {
  range : Range;
  fullPreviewLines : list string
}.

(** File matches and folder matches, by content. [FolderMatchWithResource]
    stands for that class and its subclass for workspace roots;
    [FolderMatch] for the base class and the folder without root, whose
    [resource] may be [null]. *)
Inductive FileOrFolderMatch :=
| FileMatch (resource : URI) (matches : list Match)
| FolderMatch (resource : option URI) (matches : list FileOrFolderMatch)
| FolderMatchWithResource (resource : URI) (matches : list FileOrFolderMatch).

(** [RenderableMatch]: a row of the results tree. *)
Inductive RenderableMatch :=
| OfMatch (m : Match)
| OfFileOrFolder (f : FileOrFolderMatch).

(** The [resource] property of a file or folder match. *)
Definition resourceOf (f : FileOrFolderMatch) : option URI :=
  match f with
  | FileMatch r _ => Some r
  | FolderMatch r _ => r
  | FolderMatchWithResource r _ => Some r
  end.

(** [' '.repeat(n)] and friends, for a count that is not negative. *)
Fixpoint js_repeat (s : string) (n : nat) : string :=
  match n with
  | 0 => ""
  | S n => s +:+ js_repeat s n
  end.

(** [array.reduce((acc, x, i) => ..., init)]. *)
Fixpoint reducei {A B} (f : B -> A -> nat -> B) (i : nat) (acc : B) (l : list A) : B :=
  match l with
  | [] => acc
  | x :: l => reducei f (S i) (f acc x i) l
  end.

Definition LF : string := String (ascii_of_nat 10) "".
Definition CRLF : string := String (ascii_of_nat 13) LF.

Definition getFirstLinePrefix (m : Match) : string :=
  pretty (startLineNumber (range m)) +:+ "," +:+ pretty (startColumn (range m)).

Definition getOtherLinePrefix (m : Match) (i : nat) : string :=
  pretty (startLineNumber (range m) + Z.of_nat i)%Z.

(** The conditional [i === 0 ? getFirstLinePrefix() : getOtherLinePrefix(i)],
    which the source writes out in both callbacks. *)
Definition linePrefix (m : Match) (i : nat) : string :=
  if Nat.eqb i 0 then getFirstLinePrefix m else getOtherLinePrefix m i.

Definition largestPrefixSize (m : Match) : nat :=
  reducei (fun largest (_ : string) i =>
             Nat.max (String.length (linePrefix m i)) largest)
          0 0 (fullPreviewLines m).

(** The callback of [fullMatchLines.map]. The repeat count
    [largestPrefixSize - prefix.length] is a natural number here; the
    subtraction never truncates, since no prefix is longer than the
    largest. *)
Definition formatLine (m : Match) (indent : nat) (i : nat) (line : string) : string :=
  let prefix := linePrefix m i in
  let paddingStr := js_repeat " " (largestPrefixSize m - String.length prefix) in
  let indentStr := js_repeat " " indent in
  indentStr +:+ prefix +:+ ": " +:+ paddingStr +:+ line.

Definition formattedLines (m : Match) (indent : nat) : list string :=
  imap (formatLine m indent) (fullPreviewLines m).

(** [matchToString(match, indent = 0)]; its two call sites pass no indent
    and the indent 2. *)
Definition matchToString (m : Match) (indent : nat) : string :=
  String.concat LF (formattedLines m indent).

Section Handlers.

(** What the host supplies: the label service (called with
    [{ noPrefix: true }]), the platform flag and the comparator of the
    search model, on line matches and on file or folder matches. *)
Variable getUriLabel : option URI -> string.
Variable isWindows : bool.
Variable searchMatchComparer : Match -> Match -> Z.
Variable searchMatchComparer' : FileOrFolderMatch -> FileOrFolderMatch -> Z.

Definition lineDelimiter : string := if isWindows then CRLF else LF.

(** [fileMatchToString], on the two fields of the file match. *)
Definition fileMatchToString (resource : URI) (matches : list Match) : string * nat :=
  let matchTextRows :=
    map (fun m => matchToString m 2) (JS.js_sort searchMatchComparer matches) in
  let uriString := getUriLabel (Some resource) in
  (uriString +:+ lineDelimiter +:+ String.concat lineDelimiter matchTextRows,
   length matchTextRows).

(** The [forEach] of [folderMatchToString], on the rendered children. *)
Definition joinFolderResults (rendered : list (string * nat)) : string * nat :=
  (String.concat (lineDelimiter +:+ lineDelimiter) (map fst rendered),
   foldl (fun numMatches r => numMatches + snd r) 0 rendered).

(** [fileFolderMatchToString] and [folderMatchToString], which call each
    other. Each child is rendered next to itself and the pairs are then
    sorted on the child, so that the recursion stays on the children;
    [folderMatchToString_unfold] shows that this renders the sorted
    children, as the source does. *)
Fixpoint fileFolderMatchToString (m : FileOrFolderMatch) : string * nat :=
  match m with
  | FileMatch r ms => fileMatchToString r ms
  | FolderMatch _ children
  | FolderMatchWithResource _ children =>
      joinFolderResults
        (map snd
           (JS.js_sort (fun a b => searchMatchComparer' (fst a) (fst b))
              (map (fun c => (c, fileFolderMatchToString c)) children)))
  end.

Definition folderMatchToString (children : list FileOrFolderMatch) : string * nat :=
  joinFolderResults
    (map fileFolderMatchToString (JS.js_sort searchMatchComparer' children)).

(** What the handlers read from the host. [activeSearchView] is
    [getActiveViewWithId(VIEW_ID)], present or not; [selection] is
    [getControl().getSelection()] of that view. *)
Record SearchView := {
  selection : list (option RenderableMatch)
}.

(** The calls that act on the host: the four toggles of the search view
    and the write to the clipboard. A lookup that only answers a value
    (the active view, the selection, a label) is a function of the host. *)
Inductive HostCall :=
| ToggleCaseSensitive
| ToggleWholeWords
| ToggleRegex
| TogglePreserveCase
| WriteText (text : string).

Record Host := {
  activeSearchView : option SearchView;
  calls : list HostCall
}.

Definition call (c : HostCall) (h : Host) : Host :=
  {| activeSearchView := activeSearchView h; calls := calls h ++ [c] |}.

Definition getSearchView (h : Host) : option SearchView := activeSearchView h.

(** [searchView?.method()]. *)
Definition onSearchView (c : HostCall) (h : Host) : Host :=
  match getSearchView h with
  | Some _ => call c h
  | None => h
  end.

Definition toggleCaseSensitiveCommand : Host -> Host := onSearchView ToggleCaseSensitive.

(** [searchView?.getControl().getSelection()[0]]: absent without a view,
    with an empty selection, or when the first entry is [null]. *)
Definition getSelectedRow (h : Host) : option RenderableMatch :=
  match getSearchView h with
  | Some v => match selection v with
              | x :: _ => x
              | [] => None
              end
  | None => None
  end.

(** [selection instanceof FileMatch || selection instanceof FolderMatchWithResource]. *)
Definition isPathRow (r : RenderableMatch) : option FileOrFolderMatch :=
  match r with
  | OfFileOrFolder (FileMatch u ms) => Some (FileMatch u ms)
  | OfFileOrFolder (FolderMatchWithResource u cs) => Some (FolderMatchWithResource u cs)
  | _ => None
  end.

Definition copyPathCommand (fileMatch : option FileOrFolderMatch) (h : Host) : Host :=
  let target :=
    match fileMatch with
    | Some f => Some f
    | None => match getSelectedRow h with
              | Some r => isPathRow r
              | None => None
              end
    end in
  match target with
  | None => h
  | Some f =>
      let text := getUriLabel (resourceOf f) in
      call (WriteText text) h
  end.

(** The text [copyMatchCommand] computes for a row. *)
Definition textOf (r : RenderableMatch) : string :=
  match r with
  | OfMatch m => matchToString m 0
  | OfFileOrFolder (FileMatch u ms) => fst (fileMatchToString u ms)
  | OfFileOrFolder (FolderMatch _ cs)
  | OfFileOrFolder (FolderMatchWithResource _ cs) => fst (folderMatchToString cs)
  end.

Definition copyMatchCommand (match_ : option RenderableMatch) (h : Host) : Host :=
  let target :=
    match match_ with
    | Some r => Some r
    | None => getSelectedRow h
    end in
  match target with
  | None => h
  | Some r =>
      let text := textOf r in
      if JS.truthy_string (Some text) then call (WriteText text) h else h
  end.

(** *** The rendering of folders follows the source *)

Lemma sort_insert_paired {A B} (compare : A -> A -> Z) (f : A -> B) x l :
  JS.sort_insert (fun a b => compare (fst a) (fst b)) (x, f x)
    (map (fun c => (c, f c)) l)
  = map (fun c => (c, f c)) (JS.sort_insert compare x l).
Proof.
  induction l as [|y l IH]; simpl; [reflexivity|].
  destruct (compare x y <=? 0)%Z; simpl; [reflexivity|].
  rewrite IH. reflexivity.
Qed.

Lemma js_sort_paired {A B} (compare : A -> A -> Z) (f : A -> B) l :
  JS.js_sort (fun a b => compare (fst a) (fst b)) (map (fun c => (c, f c)) l)
  = map (fun c => (c, f c)) (JS.js_sort compare l).
Proof.
  induction l as [|x l IH]; simpl; [reflexivity|].
  rewrite IH. apply sort_insert_paired.
Qed.

Lemma folderMatchToString_unfold (m : FileOrFolderMatch) :
  fileFolderMatchToString m
  = match m with
    | FileMatch r ms => fileMatchToString r ms
    | FolderMatch _ cs | FolderMatchWithResource _ cs => folderMatchToString cs
    end.
Proof.
  destruct m as [r ms|r cs|r cs]; simpl; [reflexivity| |];
    unfold folderMatchToString;
    rewrite (js_sort_paired searchMatchComparer' fileFolderMatchToString);
    rewrite map_map; reflexivity.
Qed.

(** *** Absent optional elements *)


End Handlers.

(** *** The layout of [matchToString] *)

Lemma length_append (s t : string) :
  String.length (s +:+ t) = String.length s + String.length t.
Proof. induction s as [|c s IH]; simpl; [reflexivity|]. rewrite IH. reflexivity. Qed.

Lemma length_js_repeat_space (n : nat) : String.length (js_repeat " " n) = n.
Proof.
  induction n as [|n IH]; [reflexivity|].
  change (js_repeat " " (S n)) with (" " +:+ js_repeat " " n).
  rewrite length_append, IH. reflexivity.
Qed.

Section Largest.

Variable size : nat -> nat.

Definition step (largest : nat) (_ : string) (i : nat) : nat :=
  Nat.max (size i) largest.

Lemma reducei_acc_le (l : list string) k acc : acc <= reducei step k acc l.
Proof.
  revert k acc. induction l as [|x l IH]; intros k acc; simpl; [lia|].
  specialize (IH (S k) (step acc x k)). unfold step in *. lia.
Qed.

Lemma reducei_bounds (l : list string) k acc i :
  k <= i < k + length l -> size i <= reducei step k acc l.
Proof.
  revert k acc. induction l as [|x l IH]; intros k acc Hi; simpl in *; [lia|].
  destruct (decide (i = k)) as [->|Hne].
  - pose proof (reducei_acc_le l (S k) (step acc x k)). unfold step in *. lia.
  - apply IH. lia.
Qed.

Lemma reducei_attained (l : list string) k acc :
  reducei step k acc l = acc \/
  exists j, k <= j < k + length l /\ size j = reducei step k acc l.
Proof.
  revert k acc. induction l as [|x l IH]; intros k acc; simpl; [left; reflexivity|].
  destruct (IH (S k) (step acc x k)) as [He|(j & Hj & He)].
  - rewrite He. unfold step.
    destruct (Nat.max_spec (size k) acc) as [[_ Hm]|[_ Hm]]; rewrite Hm.
    + left. reflexivity.
    + right. exists k. split; [lia|reflexivity].
  - right. exists j. split; [lia|exact He].
Qed.

End Largest.

(** C10. For a match with at least one preview line, [matchToString] is
    the join by line feeds of one formatted line per preview line. Line
    [i] is [indent] spaces, the prefix of the line (line and column of the
    start for the first line, the start line plus [i] after it), a colon
    and a space, the padding, then the preview line. The padding fills the
    prefix up to the width of the longest prefix, which some line attains,
    so that the preview text starts at column [indent + width + 2] on
    every line. *)
Theorem matchToString_aligned (m : Match) (indent : nat) :
  fullPreviewLines m <> [] ->
  exists (formatted : list string) (width : nat),
    matchToString m indent = String.concat LF formatted /\
    length formatted = length (fullPreviewLines m) /\
    linePrefix m 0
      = pretty (startLineNumber (range m)) +:+ "," +:+ pretty (startColumn (range m)) /\
    (forall i, 0 < i ->
       linePrefix m i = pretty (startLineNumber (range m) + Z.of_nat i)%Z) /\
    (exists j, j < length (fullPreviewLines m) /\
               String.length (linePrefix m j) = width) /\
    forall i line, fullPreviewLines m !! i = Some line ->
      exists padding,
        formatted !! i
          = Some (js_repeat " " indent +:+ linePrefix m i +:+ ": "
                  +:+ js_repeat " " padding +:+ line) /\
        String.length (linePrefix m i) + padding = width /\
        String.length (js_repeat " " indent +:+ linePrefix m i +:+ ": "
                       +:+ js_repeat " " padding)
          = indent + width + 2.
Proof.
  intros Hne.
  exists (formattedLines m indent), (largestPrefixSize m).
  split; [reflexivity|].
  split; [apply length_imap|].
  split; [reflexivity|].
  split.
  { intros i Hi. unfold linePrefix. destruct i; [lia|reflexivity]. }
  assert (HW : largestPrefixSize m
               = reducei (step (fun i => String.length (linePrefix m i)))
                   0 0 (fullPreviewLines m)) by reflexivity.
  assert (Hle : forall i, i < length (fullPreviewLines m) ->
                  String.length (linePrefix m i) <= largestPrefixSize m).
  { intros i Hi. rewrite HW.
    apply (reducei_bounds (fun i => String.length (linePrefix m i))). lia. }
  split.
  { destruct (reducei_attained (fun i => String.length (linePrefix m i))
                (fullPreviewLines m) 0 0) as [He|(j & Hj & He)].
    - exists 0.
      assert (Hlen : 0 < length (fullPreviewLines m)).
      { destruct (fullPreviewLines m); [congruence|simpl; lia]. }
      split; [exact Hlen|].
      specialize (Hle 0 Hlen). rewrite HW in *. lia.
    - exists j. rewrite HW. split; [lia|exact He]. }
  intros i line Hi.
  exists (largestPrefixSize m - String.length (linePrefix m i)).
  pose proof (Hle i (lookup_lt_Some _ _ _ Hi)) as Hi'.
  split.
  { unfold formattedLines. rewrite list_lookup_imap, Hi. reflexivity. }
  split; [lia|].
  rewrite !length_append, !length_js_repeat_space. simpl. lia.
Qed.

(** A match of three preview lines that starts at line 9, column 14. *)
Definition sampleMatch : Match :=
  {| range := {| startLineNumber := 9; startColumn := 14;
                 endLineNumber := 11; endColumn := 3 |};
     fullPreviewLines := ["let a = f("; "  b,"; "  c);"] |}.

Example matchToString_sample :
  matchToString sampleMatch 2
  = "  9,14: let a = f(" +:+ LF +:+ "  10:     b," +:+ LF +:+ "  11:     c);".
Proof. vm_compute. reflexivity. Qed.

Lemma matchToString_aligned_witness :
  exists (formatted : list string) (width : nat),
    matchToString sampleMatch 2 = String.concat LF formatted /\
    length formatted = length (fullPreviewLines sampleMatch) /\
    linePrefix sampleMatch 0
      = pretty (startLineNumber (range sampleMatch)) +:+ ","
        +:+ pretty (startColumn (range sampleMatch)) /\
    (forall i, 0 < i ->
       linePrefix sampleMatch i
       = pretty (startLineNumber (range sampleMatch) + Z.of_nat i)%Z) /\
    (exists j, j < length (fullPreviewLines sampleMatch) /\
               String.length (linePrefix sampleMatch j) = width) /\
    forall i line, fullPreviewLines sampleMatch !! i = Some line ->
      exists padding,
        formatted !! i
          = Some (js_repeat " " 2 +:+ linePrefix sampleMatch i +:+ ": "
                  +:+ js_repeat " " padding +:+ line) /\
        String.length (linePrefix sampleMatch i) + padding = width /\
        String.length (js_repeat " " 2 +:+ linePrefix sampleMatch i +:+ ": "
                       +:+ js_repeat " " padding)
          = 2 + width + 2.
Proof.
  apply (matchToString_aligned sampleMatch 2). discriminate.
Defined.

(** Hosts for the three handlers of C5: no view at all, and a view whose
    first selected row is a line match. *)
Definition noView : Host := {| activeSearchView := None; calls := [] |}.

Definition matchSelected : Host :=
  {| activeSearchView := Some {| selection := [Some (OfMatch sampleMatch)] |};
     calls := [] |}.

Example toggle_without_view :
  toggleCaseSensitiveCommand noView = noView /\
  calls (toggleCaseSensitiveCommand matchSelected) = [ToggleCaseSensitive].
Proof. split; reflexivity. Qed.

Example copy_without_row (getUriLabel : option URI -> string) :
  copyMatchCommand getUriLabel false (fun _ _ => 0%Z) (fun _ _ => 0%Z) None noView
    = noView /\
  copyPathCommand getUriLabel None matchSelected = matchSelected /\
  calls (copyMatchCommand getUriLabel false (fun _ _ => 0%Z) (fun _ _ => 0%Z)
           None matchSelected)
    = [WriteText ("9,14: let a = f(" +:+ LF +:+ "10:     b," +:+ LF +:+ "11:     c);")].
Proof. repeat split; vm_compute; reflexivity. Qed.

(** *** Counts, empty texts and copying everything *)

Lemma FileOrFolderMatch_ind' (P : FileOrFolderMatch -> Prop) :
  (forall r ms, P (FileMatch r ms)) ->
  (forall r cs, Forall P cs -> P (FolderMatch r cs)) ->
  (forall r cs, Forall P cs -> P (FolderMatchWithResource r cs)) ->
  forall m, P m.
Proof.
  intros Hfile Hfolder Hwith. fix IH 1. intros [r ms|r cs|r cs].
  - apply Hfile.
  - apply Hfolder. induction cs as [|c cs IHcs]; constructor; [apply IH|exact IHcs].
  - apply Hwith. induction cs as [|c cs IHcs]; constructor; [apply IH|exact IHcs].
Qed.

(** The line matches below a file or a folder. *)
Fixpoint lineMatches (m : FileOrFolderMatch) : nat :=
  match m with
  | FileMatch _ ms => length ms
  | FolderMatch _ cs | FolderMatchWithResource _ cs => sum_list (map lineMatches cs)
  end.

Lemma sum_list_perm (l k : list nat) : l ≡ₚ k -> sum_list l = sum_list k.
Proof. induction 1; simpl; lia. Qed.

Lemma foldl_counts (rendered : list (string * nat)) (a : nat) :
  foldl (fun numMatches r => numMatches + snd r) a rendered
  = a + sum_list (map snd rendered).
Proof.
  revert a. induction rendered as [|r l IH]; intros a; simpl; [lia|].
  rewrite IH. lia.
Qed.

Lemma String_concat_empty sep x l : String.concat sep (x :: l) = "" -> x = "".
Proof.
  destruct l as [|y l]; simpl; [auto|].
  destruct x; [reflexivity|discriminate].
Qed.

Section Texts.

Variable getUriLabel : option URI -> string.
Variable isWindows : bool.
Variable searchMatchComparer : Match -> Match -> Z.
Variable searchMatchComparer' : FileOrFolderMatch -> FileOrFolderMatch -> Z.

(** [searchView.searchResult.folderMatches()]. *)
Variable folderMatchesOf : SearchView -> list FileOrFolderMatch.

#[local] Abbreviation render :=
  (fileFolderMatchToString getUriLabel isWindows searchMatchComparer
     searchMatchComparer').

Lemma render_count (m : FileOrFolderMatch) : snd (render m) = lineMatches m.
Proof.
  induction m as [r ms|r cs IH|r cs IH] using FileOrFolderMatch_ind'.
  - simpl. rewrite length_map.
    apply Permutation_length, JS.js_sort_perm.
  - rewrite folderMatchToString_unfold. unfold folderMatchToString, joinFolderResults.
    simpl. rewrite foldl_counts. simpl.
    rewrite (sum_list_perm _ (map snd (map render cs))).
    + rewrite map_map. f_equal. apply Forall_fmap_ext_1, IH.
    + rewrite (JS.js_sort_perm searchMatchComparer' cs). reflexivity.
  - rewrite folderMatchToString_unfold. unfold folderMatchToString, joinFolderResults.
    simpl. rewrite foldl_counts. simpl.
    rewrite (sum_list_perm _ (map snd (map render cs))).
    + rewrite map_map. f_equal. apply Forall_fmap_ext_1, IH.
    + rewrite (JS.js_sort_perm searchMatchComparer' cs). reflexivity.
Qed.

(** X6. The count that comes with the text of a file is the number of its
    line matches, and the count of a folder is the number of line matches
    in the files below it, at any depth; sorting changes neither. *)
Theorem match_counts_are_line_matches (m : FileOrFolderMatch) :
  snd (fileFolderMatchToString getUriLabel isWindows searchMatchComparer
         searchMatchComparer' m) = lineMatches m /\
  (forall r ms, snd (fileMatchToString getUriLabel isWindows searchMatchComparer r ms)
                = length ms) /\
  (forall cs, snd (folderMatchToString getUriLabel isWindows searchMatchComparer
                     searchMatchComparer' cs)
              = sum_list (map lineMatches cs)).
Proof.
  split; [apply render_count|]. split.
  - intros r ms. apply (render_count (FileMatch r ms)).
  - intros cs. pose proof (render_count (FolderMatch None cs)) as Hc.
    rewrite folderMatchToString_unfold in Hc. exact Hc.
Qed.

Lemma lineDelimiter_not_empty : String.length (lineDelimiter isWindows) > 0.
Proof. unfold lineDelimiter. destruct isWindows; simpl; lia. Qed.

Lemma matchToString_empty (m : Match) (indent : nat) :
  matchToString m indent = "" <-> fullPreviewLines m = [].
Proof.
  unfold matchToString, formattedLines. split.
  - destruct (fullPreviewLines m) as [|x l]; [reflexivity|].
    intros Hempty. simpl in Hempty. apply String_concat_empty in Hempty.
    apply (f_equal String.length) in Hempty. unfold formatLine in Hempty.
    rewrite !length_append in Hempty. simpl in Hempty. lia.
  - intros ->. reflexivity.
Qed.

(** X7. With a row as argument [copyMatchCommand] never looks at the
    selection. For a line match it writes the text of the match, which is
    not empty, unless the match has no preview line, and then it writes
    nothing. For a file match it always writes, the label of the file
    being part of the text. For a folder without children it writes
    nothing. *)
Theorem copyMatchCommand_writes_unless_empty (h : Host) :
  (forall m, fullPreviewLines m = [] ->
     copyMatchCommand getUriLabel isWindows searchMatchComparer searchMatchComparer'
       (Some (OfMatch m)) h = h) /\
  (forall m, fullPreviewLines m <> [] ->
     matchToString m 0 <> "" /\
     copyMatchCommand getUriLabel isWindows searchMatchComparer searchMatchComparer'
       (Some (OfMatch m)) h = call (WriteText (matchToString m 0)) h) /\
  (forall r ms,
     copyMatchCommand getUriLabel isWindows searchMatchComparer searchMatchComparer'
       (Some (OfFileOrFolder (FileMatch r ms))) h
     = call (WriteText (fst (fileMatchToString getUriLabel isWindows
                               searchMatchComparer r ms))) h) /\
  (forall r u,
     copyMatchCommand getUriLabel isWindows searchMatchComparer searchMatchComparer'
       (Some (OfFileOrFolder (FolderMatch r []))) h = h /\
     copyMatchCommand getUriLabel isWindows searchMatchComparer searchMatchComparer'
       (Some (OfFileOrFolder (FolderMatchWithResource u []))) h = h).
Proof.
  unfold copyMatchCommand, JS.truthy_string. simpl.
  split; [|split; [|split]].
  - intros m Hm. apply (matchToString_empty m 0) in Hm. rewrite Hm. reflexivity.
  - intros m Hm.
    assert (Hne : matchToString m 0 <> "").
    { intros He. apply Hm, (matchToString_empty m 0), He. }
    split; [exact Hne|].
    destruct (String.eqb_spec (matchToString m 0) ""); [contradiction|reflexivity].
  - intros r ms.
    match goal with |- context [String.eqb ?t ""] =>
      destruct (String.eqb_spec t "") as [He|_]; [|reflexivity] end.
    exfalso. apply (f_equal String.length) in He.
    rewrite !length_append in He. pose proof lineDelimiter_not_empty. simpl in He. lia.
  - intros r u. split; reflexivity.
Qed.

(** [allFolderMatchesToString], on the folder matches of the search
    result. *)
Definition allFolderMatchesToString (folderMatches : list FileOrFolderMatch) : string :=
  let folderMatches := JS.js_sort searchMatchComparer' folderMatches in
  let folderResults :=
    omap (fun fm =>
            let folderResult := render fm in
            if Nat.eqb (snd folderResult) 0 then None else Some (fst folderResult))
         folderMatches in
  String.concat (lineDelimiter isWindows +:+ lineDelimiter isWindows) folderResults.

(** [copyAllCommand]. *)
Definition copyAllCommand (h : Host) : Host :=
  match getSearchView h with
  | Some searchView =>
      let text := allFolderMatchesToString (folderMatchesOf searchView) in
      call (WriteText text) h
  | None => h
  end.

Lemma omap_all_none {A B} (f : A -> option B) (l : list A) :
  Forall (fun x => f x = None) l -> omap f l = [].
Proof. induction 1 as [|x l Hx _ IH]; csimpl; [reflexivity|]. rewrite Hx. exact IH. Qed.

(** X8. Without an active search view [copyAllCommand] does nothing. With one
    it writes to the clipboard once, whatever the text: folders without a
    line match below them contribute nothing to it, and when no folder
    has one the text written is the empty string. *)
Theorem copyAllCommand_writes_once (h : Host) :
  (getSearchView h = None -> copyAllCommand h = h) /\
  (forall v, getSearchView h = Some v ->
     calls (copyAllCommand h)
       = calls h ++ [WriteText (allFolderMatchesToString (folderMatchesOf v))] /\
     allFolderMatchesToString (folderMatchesOf v)
       = String.concat (lineDelimiter isWindows +:+ lineDelimiter isWindows)
           (map (fun fm => fst (render fm))
              (List.filter (fun fm => negb (Nat.eqb (lineMatches fm) 0))
                 (JS.js_sort searchMatchComparer' (folderMatchesOf v)))) /\
     (Forall (fun fm => lineMatches fm = 0) (folderMatchesOf v) ->
        calls (copyAllCommand h) = calls h ++ [WriteText ""])).
Proof.
  unfold copyAllCommand. split; [intros ->; reflexivity|].
  intros v ->. split; [reflexivity|].
  assert (Hfilter : forall l,
            omap (fun fm => if Nat.eqb (snd (render fm)) 0 then None
                            else Some (fst (render fm))) l
            = map (fun fm => fst (render fm))
                (List.filter (fun fm => negb (Nat.eqb (lineMatches fm) 0)) l)).
  { induction l as [|fm l IH]; [reflexivity|]. csimpl.
    rewrite render_count, IH. destruct (Nat.eqb (lineMatches fm) 0); reflexivity. }
  split; [unfold allFolderMatchesToString; rewrite Hfilter; reflexivity|].
  intros Hnone. simpl. do 2 f_equal. f_equal.
  unfold allFolderMatchesToString. rewrite omap_all_none; [reflexivity|].
  rewrite (JS.js_sort_perm searchMatchComparer' (folderMatchesOf v)).
  eapply Forall_impl; [exact Hnone|]. intros fm Hfm. simpl in Hfm.
  rewrite render_count, Hfm. reflexivity.
Qed.

End Texts.

(** A match without preview lines, as argument and as selection. *)
Example copy_of_empty_match :
  let m := {| range := range sampleMatch; fullPreviewLines := [] |} in
  copyMatchCommand (fun _ => "a.ts") false (fun _ _ => 0%Z) (fun _ _ => 0%Z)
    (Some (OfMatch m)) matchSelected = matchSelected.
Proof. reflexivity. Qed.

End Clipboard.

(** ** Navigation in the results tree, removal and replacement *)
Module SearchTree.

Definition URI := string.

(** The classes of folder match: the base class, the class with a resource,
    and the two kinds of root. All four are instances of [FolderMatch]. *)
Inductive FolderClass := BaseFolder | WithResource | WorkspaceRoot | NoRoot.

(** [RenderableMatch]: an object of the search model, known by its class
    and its identity. Two references are [===] when they are equal here. *)
Inductive RenderableMatch :=
| FolderMatch (c : FolderClass) (id : nat)
| FileMatch (id : nat)
| Match (id : nat).

#[global] Instance FolderClass_eq_dec : EqDecision FolderClass.
Proof. solve_decision. Defined.

#[global] Instance RenderableMatch_eq_dec : EqDecision RenderableMatch.
Proof. solve_decision. Defined.

Definition instanceofFolderMatch (x : RenderableMatch) : bool :=
  match x with FolderMatch _ _ => true | _ => false end.

Definition instanceofFileMatch (x : RenderableMatch) : bool :=
  match x with FileMatch _ => true | _ => false end.

Definition instanceofMatch (x : RenderableMatch) : bool :=
  match x with Match _ => true | _ => false end.

(** What [parent()] answers: a file or folder match, or the search result
    at the top of the model. *)
Inductive Parent :=
| TheSearchResult
| ParentMatch (e : RenderableMatch).

(** [a === b] for a parent, or [null], against a row of the tree, or [null]. *)
Definition strictEq (a : option Parent) (b : option RenderableMatch) : bool :=
  match a, b with
  | None, None => true
  | Some (ParentMatch x), Some y => bool_decide (x = y)
  | _, _ => false
  end.

Definition Position : Type := Z * Z.

(** [a.isBeforeOrEqual(b)] on editor positions (line, column). *)
Definition isBeforeOrEqual (a b : Position) : bool :=
  (fst a <? fst b)%Z || ((fst a =? fst b)%Z && (snd a <=? snd b)%Z).

Definition SortOrder := string.

(** The search model as the actions read it: the accessors of its objects,
    the comparator and the containment test it exports, and the comparison
    of resources of the URI identity service. *)
Class SearchModel := {
  parent : RenderableMatch -> Parent;
  closestRoot : RenderableMatch -> option RenderableMatch;
  parentId : Parent -> string;
  parentResource : Parent -> URI;
  startPosition : RenderableMatch -> Position;
  searchComparer : RenderableMatch -> RenderableMatch -> SortOrder -> Z;
  arrayContainsElementOrParent : RenderableMatch -> list RenderableMatch -> bool;
  extUri_isEqual : URI -> URI -> bool
}.

(** *** The tree widget *)

#[local] Unset Elimination Schemes.

(** Modelled from the spec: the tree widget ([WorkbenchObjectTree]) and its
    navigator are host code outside the file; section 3 describes what is
    shown as a tree of renderable match nodes that the actions traverse
    with a navigator. A node carries its element, whether it is collapsed,
    and its children; the rows of the widget are the nodes in preorder,
    without the descendants of collapsed nodes. *)
Inductive TreeNode :=
| Node (element : RenderableMatch) (collapsed : bool) (children : list TreeNode).

#[local] Set Elimination Schemes.

Fixpoint rowsOf (n : TreeNode) : list RenderableMatch :=
  match n with
  | Node e c ch => e :: (if c then [] else concat (map rowsOf ch))
  end.

Fixpoint elementsOf (n : TreeNode) : list RenderableMatch :=
  match n with
  | Node e _ ch => e :: concat (map elementsOf ch)
  end.

(** [expand(x)]: the node of [x] is no longer collapsed. *)
Fixpoint expandIn (x : RenderableMatch) (n : TreeNode) : TreeNode :=
  match n with
  | Node e c ch =>
      Node e (if decide (e = x) then false else c) (map (expandIn x) ch)
  end.

(** The collapsed flag of the node of [x], when the tree has one. *)
Fixpoint collapsedIn (x : RenderableMatch) (n : TreeNode) : option bool :=
  match n with
  | Node e c ch =>
      if decide (e = x) then Some c
      else (fix first (l : list TreeNode) : option bool :=
              match l with
              | [] => None
              | n' :: l' => match collapsedIn x n' with
                            | Some b => Some b
                            | None => first l'
                            end
              end) ch
  end.

Fixpoint collapsedInForest (x : RenderableMatch) (l : list TreeNode) : option bool :=
  match l with
  | [] => None
  | n :: l' => match collapsedIn x n with
               | Some b => Some b
               | None => collapsedInForest x l'
               end
  end.

(** The widget: its tree, and the selection and focus it holds. *)
Record Viewer := {
  roots : list TreeNode;
  selection : list (option RenderableMatch);
  focus : list RenderableMatch
}.

Definition rows (v : Viewer) : list RenderableMatch := concat (map rowsOf (roots v)).
Definition elements (v : Viewer) : list RenderableMatch := concat (map elementsOf (roots v)).
Definition size (v : Viewer) : nat := length (elements v).

Definition expand (x : RenderableMatch) (v : Viewer) : Viewer :=
  {| roots := map (expandIn x) (roots v); selection := selection v; focus := focus v |}.

Definition collapsedState (v : Viewer) (x : RenderableMatch) : option bool :=
  collapsedInForest x (roots v).

(** [isCollapsed(x)]; the widget answers [false] for [null], its root. *)
Definition isCollapsed (v : Viewer) (x : option RenderableMatch) : bool :=
  match x with
  | Some x => default false (collapsedState v x)
  | None => false
  end.

Definition setFocus (l : list RenderableMatch) (v : Viewer) : Viewer :=
  {| roots := roots v; selection := selection v; focus := l |}.

Definition setSelection (l : list RenderableMatch) (v : Viewer) : Viewer :=
  {| roots := roots v; selection := map Some l; focus := focus v |}.

(** Modelled from the spec: the navigator of the widget, of which the file
    has only the interface ([next], [previous], [current]), is a cursor
    into the rows of the widget as they are when it is asked: [navigate(start)] puts it on the row of [start], or before
    the first row without a start or when [start] has no row; [next] and
    [previous] move it by one row; [current] is [null] off either end. *)
Definition getListIndex (v : Viewer) (x : RenderableMatch) : Z :=
  match list_find (fun y => y = x) (rows v) with
  | Some (i, _) => Z.of_nat i
  | None => (-1)%Z
  end.

Definition navigate (v : Viewer) (start : option RenderableMatch) : Z :=
  match start with
  | Some x => getListIndex v x
  | None => (-1)%Z
  end.

Definition current (v : Viewer) (n : Z) : option RenderableMatch :=
  if (n <? 0)%Z then None else rows v !! Z.to_nat n.

(** *** Outcomes *)

Inductive Error := TypeError (message : string).

(** A call returns a value, throws, or exhausts the fuel of a loop; the
    first two come with the state they leave. *)
Inductive Outcome (S A : Type) :=
| Done (a : A) (s : S)
| Throws (e : Error) (s : S)
| OutOfFuel.

Arguments Done {S A} a s.
Arguments Throws {S A} e s.
Arguments OutOfFuel {S A}.

(** *** [AbstractSearchAndReplaceAction] *)

(** [while (!!navigator.next() && !(navigator.current() instanceof K)) { }]:
    the cursor after the loop. *)
Fixpoint nextUntil (K : RenderableMatch -> bool) (fuel : nat) (v : Viewer) (n : Z)
    : option Z :=
  match fuel with
  | 0 => None
  | S fuel =>
      let n := (n + 1)%Z in
      match current v n with
      | None => Some n
      | Some x => if K x then Some n else nextUntil K fuel v n
      end
  end.

(** [while (navigator.next() && !(navigator.current() instanceof Match))
    { viewer.expand(navigator.current()); }]: the widget and the cursor
    after the loop. *)
Fixpoint nextExpanding (fuel : nat) (v : Viewer) (n : Z) : option (Viewer * Z) :=
  match fuel with
  | 0 => None
  | S fuel =>
      let n := (n + 1)%Z in
      match current v n with
      | None => Some (v, n)
      | Some x => if instanceofMatch x then Some (v, n)
                  else nextExpanding fuel (expand x v) n
      end
  end.

Definition getNextElementAfterRemoved (fuel : nat) (viewer : Viewer)
    (element : RenderableMatch) : Outcome Viewer (option RenderableMatch) :=
  let navigator := navigate viewer (Some element) in
  if instanceofFolderMatch element then
    match nextUntil instanceofFolderMatch fuel viewer navigator with
    | Some n => Done (current viewer n) viewer
    | None => OutOfFuel
    end
  else if instanceofFileMatch element then
    match nextUntil instanceofFileMatch fuel viewer navigator with
    | Some n => Done (current viewer n) viewer
    | None => OutOfFuel
    end
  else
    match nextExpanding fuel viewer navigator with
    | Some (viewer', n) => Done (current viewer' n) viewer'
    | None => OutOfFuel
    end.

Section Actions.

Context `{SearchModel}.

(** [getVisibleParent(element, isTreeViewVisible)]. *)
Definition getVisibleParent (element : RenderableMatch) (isTreeViewVisible : bool)
    : option Parent :=
  if isTreeViewVisible || instanceofMatch element
  then Some (parent element)
  else ParentMatch <$> closestRoot element.

(** [parent instanceof FileMatch && getVisibleParent(parent, ...) === previousElement]. *)
Definition grandParentIs (p : option Parent) (isTreeViewVisible : bool)
    (previousElement : option RenderableMatch) : bool :=
  match p with
  | Some (ParentMatch (FileMatch i)) =>
      strictEq (getVisibleParent (FileMatch i) isTreeViewVisible) previousElement
  | _ => false
  end.

(** The two [if] blocks that expand the previous row:
    [navigator.next(); viewer.expand(previousElement);
     previousElement = navigator.previous();]. *)
Definition expandPrevious (K : RenderableMatch -> bool) (element : RenderableMatch)
    (st : Z * option RenderableMatch * Viewer) : Z * option RenderableMatch * Viewer :=
  let '(n, previousElement, v) := st in
  match previousElement with
  | Some p =>
      if instanceofMatch element && K p then
        let n := (n + 1)%Z in
        let v := expand p v in
        let n := (n - 1)%Z in
        (n, current v n, v)
      else st
  | None => st
  end.

Definition getPreviousElementAfterRemoved (viewer : Viewer) (element : RenderableMatch)
    (isTreeViewVisible : bool) : option RenderableMatch * Viewer :=
  let n := navigate viewer (Some element) in
  let n := (n - 1)%Z in
  let previousElement := current viewer n in
  let p := getVisibleParent element isTreeViewVisible in
  let '(n, previousElement) :=
    if strictEq p previousElement
    then ((n - 1)%Z, current viewer (n - 1)%Z) else (n, previousElement) in
  let '(n, previousElement) :=
    if grandParentIs p isTreeViewVisible previousElement
    then ((n - 1)%Z, current viewer (n - 1)%Z) else (n, previousElement) in
  let st := expandPrevious instanceofFolderMatch element (n, previousElement, viewer) in
  let '(_, previousElement, viewer) := expandPrevious instanceofFileMatch element st in
  (previousElement, viewer).

(** The object a method finds in [this]. An action inherits the three
    methods of [AbstractSearchAndReplaceAction]. The replace runner is
    handed [getElementToFocusAfterRemoved] and
    [getPreviousElementAfterRemoved] as plain functions and stores them in
    properties of those names; it has no property
    [getNextElementAfterRemoved]. *)
Inductive Receiver := AnAction | TheReplaceRunner.

Definition this_getNextElementAfterRemoved (this : Receiver)
    : option (nat -> Viewer -> RenderableMatch -> Outcome Viewer (option RenderableMatch)) :=
  match this with
  | AnAction => Some getNextElementAfterRemoved
  | TheReplaceRunner => None
  end.

Definition this_getPreviousElementAfterRemoved (this : Receiver)
    : Viewer -> RenderableMatch -> bool -> option RenderableMatch * Viewer :=
  match this with
  | AnAction | TheReplaceRunner => getPreviousElementAfterRemoved
  end.

Definition notAFunction : Error :=
  TypeError "this.getNextElementAfterRemoved is not a function".

(** [getElementToFocusAfterRemoved], with the object it is called on:
    [elementToFocus || this.getPreviousElementAfterRemoved(...)] evaluates
    its right operand only when the left one is [null]. *)
Definition getElementToFocusAfterRemoved (this : Receiver) (fuel : nat)
    (viewer : Viewer) (elementToRemove : RenderableMatch) (isTreeViewVisible : bool)
    : Outcome Viewer (option RenderableMatch) :=
  match this_getNextElementAfterRemoved this with
  | None => Throws notAFunction viewer
  | Some getNext =>
      match getNext fuel viewer elementToRemove with
      | Done (Some elementToFocus) viewer => Done (Some elementToFocus) viewer
      | Done None viewer =>
          let '(previousElement, viewer) :=
            this_getPreviousElementAfterRemoved this viewer elementToRemove
              isTreeViewVisible in
          Done previousElement viewer
      | Throws e viewer => Throws e viewer
      | OutOfFuel => OutOfFuel
      end
  end.

(** [getElementsToOperateOnInfo]: [filter(x => x !== null)], [sort],
    [includes], and the test on the length. *)
Definition nonNull (l : list (option RenderableMatch)) : list RenderableMatch :=
  omap (fun x => x) l.

Definition includes (x : RenderableMatch) (l : list RenderableMatch) : bool :=
  bool_decide (x ∈ l).

Definition getElementsToOperateOnInfo (viewer : Viewer) (currElement : RenderableMatch)
    (sortOrder : SortOrder) : list RenderableMatch * bool :=
  let elements :=
    JS.js_sort (fun a b => searchComparer a b sortOrder) (nonNull (selection viewer)) in
  let mustReselect := includes currElement elements in
  let elements :=
    if negb ((1 <? length elements) && includes currElement elements)
    then [currElement] else elements in
  (elements, mustReselect).

(** *** The actions *)

(** The search-result model is the host's: its type and its two mutators
    are taken as they come. *)
Variable SearchResult : Type.
Variable batchRemove : list RenderableMatch -> SearchResult -> SearchResult.
Variable batchReplace : list RenderableMatch -> SearchResult -> SearchResult.

(** What the actions read of the active search view. *)
Record SearchView := {
  searchResult : SearchResult;
  isTreeLayoutViewVisible : bool
}.

(** Calls into the host that neither answer a value the actions use nor
    touch the tree of the widget. *)
Inductive HostCall :=
| Reveal (e : RenderableMatch)
| DomFocus
| ViewletOpen (e : RenderableMatch) (preserveFocus : bool)
| OpenReplacePreview (e : RenderableMatch) (preserveFocus : bool).

(** The host as an action sees it: the widget it was created for, the
    active search view ([getSearchView(viewsService)]) with the model, the
    two settings read, the resource of the active editor, and the calls
    made so far. *)
Record World := {
  viewer : Viewer;
  activeSearchView : option SearchView;
  sortOrder : SortOrder;
  useReplacePreview : bool;
  activeEditorResource : option URI;
  calls : list HostCall
}.

Definition with_viewer (v : Viewer) (w : World) : World :=
  {| viewer := v; activeSearchView := activeSearchView w; sortOrder := sortOrder w;
     useReplacePreview := useReplacePreview w;
     activeEditorResource := activeEditorResource w; calls := calls w |}.

Definition call (c : HostCall) (w : World) : World :=
  {| viewer := viewer w; activeSearchView := activeSearchView w;
     sortOrder := sortOrder w; useReplacePreview := useReplacePreview w;
     activeEditorResource := activeEditorResource w; calls := calls w ++ [c] |}.

(** [searchResult.batchRemove(...)] and [searchResult.batchReplace(...)],
    on the model of the active view. *)
Definition mutate (f : SearchResult -> SearchResult) (w : World) : World :=
  {| viewer := viewer w;
     activeSearchView :=
       (fun sv => {| searchResult := f (searchResult sv);
                     isTreeLayoutViewVisible := isTreeLayoutViewVisible sv |})
       <$> activeSearchView w;
     sortOrder := sortOrder w; useReplacePreview := useReplacePreview w;
     activeEditorResource := activeEditorResource w; calls := calls w |}.

Definition getSearchView (w : World) : option SearchView := activeSearchView w.

(** [searchView?.isTreeLayoutViewVisible ?? false]. *)
Definition treeLayout (w : World) : bool :=
  JS.nullish (isTreeLayoutViewVisible <$> getSearchView w) false.

(** [setFocus([x], ...); setSelection([x], ...)] on the widget. *)
Definition focusAndSelect (x : RenderableMatch) (w : World) : World :=
  with_viewer (setSelection [x] (setFocus [x] (viewer w))) w.

(** The [for] loop of [RemoveAction.run] over the elements not yet visited.
    The elements are rows of the tree, so of the three tests joined by
    [||] the first two, [!currentElement] and
    [currentElement instanceof SearchResult], are false. *)
Fixpoint reselect (fuel : nat) (elementsToRemove rest : list RenderableMatch)
    (w : World) : Outcome World unit :=
  match rest with
  | [] => Done tt w
  | currentElement :: rest =>
      if arrayContainsElementOrParent currentElement elementsToRemove then
        match getElementToFocusAfterRemoved AnAction fuel (viewer w) currentElement
                (treeLayout w) with
        | Done nextFocusElement v =>
            let w := with_viewer v w in
            match nextFocusElement with
            | Some x =>
                if negb (arrayContainsElementOrParent x elementsToRemove)
                then Done tt (focusAndSelect x (call (Reveal x) w))
                else reselect fuel elementsToRemove rest w
            | None => reselect fuel elementsToRemove rest w
            end
        | Throws e v => Throws e (with_viewer v w)
        | OutOfFuel => OutOfFuel
        end
      else reselect fuel elementsToRemove rest w
  end.

(** [RemoveAction.run], for the action created on [element]. *)
Definition RemoveAction_run (fuel : nat) (element : RenderableMatch) (w : World)
    : Outcome World unit :=
  let '(elementsToRemove, mustReselect) :=
    getElementsToOperateOnInfo (viewer w) element (sortOrder w) in
  let searchView := getSearchView w in
  if length elementsToRemove =? 0 then Done tt w
  else
    match (if mustReselect then reselect fuel elementsToRemove elementsToRemove w
           else Done tt w) with
    | Done _ w =>
        let w := match searchView with
                 | Some _ => mutate (batchRemove elementsToRemove) w
                 | None => w
                 end in
        Done tt (call DomFocus w)
    | Throws e w => Throws e w
    | OutOfFuel => OutOfFuel
    end.

(** The [do ... while (!!navigator.next())] loop of
    [getElementToFocusAfterReplace]; the answer is the last value of
    [elementToFocus]. *)
Fixpoint focusAfterReplaceLoop (fuel : nat) (v : Viewer) (currElement : RenderableMatch)
    (n : Z) (fileMatched : bool) : option (option RenderableMatch) :=
  match fuel with
  | 0 => None
  | S fuel =>
      let elementToFocus := current v n in
      let '(fileMatched, break) :=
        match elementToFocus with
        | Some x =>
            if instanceofMatch x then
              if String.eqb (parentId (parent x)) (parentId (parent currElement))
              then (true, isBeforeOrEqual (startPosition currElement) (startPosition x))
              else (fileMatched, fileMatched)
            else (fileMatched, fileMatched && isCollapsed v elementToFocus)
        | None => (fileMatched, fileMatched && isCollapsed v elementToFocus)
        end in
      if break then Some elementToFocus
      else match current v (n + 1)%Z with
           | Some _ => focusAfterReplaceLoop fuel v currElement (n + 1)%Z fileMatched
           | None => Some elementToFocus
           end
  end.

Definition getElementToFocusAfterReplace (fuel : nat) (v : Viewer)
    (currElement : RenderableMatch) : option (option RenderableMatch) :=
  focusAfterReplaceLoop fuel v currElement (navigate v None) false.

Definition hasSameParent (element : option RenderableMatch)
    (currBottomElem : RenderableMatch) : bool :=
  if negb (instanceofMatch currBottomElem) then false
  else match element with
       | Some x => instanceofMatch x
                   && extUri_isEqual (parentResource (parent x))
                        (parentResource (parent currBottomElem))
       | None => false
       end.

Definition nullDereference : Error :=
  TypeError "Cannot read properties of null".

(** [getElementToShowReplacePreview]. With [elementToFocus] [null] the call
    of [getPreviousElementAfterRemoved] reaches [getVisibleParent], which
    reads a property of [null]. *)
Definition getElementToShowReplacePreview (v : Viewer)
    (elementToFocus : option RenderableMatch) (currBottomElem : RenderableMatch)
    (isTreeViewVisible : bool) : Outcome Viewer (option RenderableMatch) :=
  if hasSameParent elementToFocus currBottomElem then Done elementToFocus v
  else match elementToFocus with
       | None => Throws nullDereference v
       | Some x =>
           let '(previousElement, v) :=
             this_getPreviousElementAfterRemoved TheReplaceRunner v x
               isTreeViewVisible in
           if hasSameParent previousElement currBottomElem
           then Done previousElement v
           else Done None v
       end.

Definition hasToOpenFile (w : World) (currBottomElem : RenderableMatch) : bool :=
  if negb (instanceofMatch currBottomElem) then false
  else match activeEditorResource w with
       | Some file => extUri_isEqual file (parentResource (parent currBottomElem))
       | None => false
       end.

(** [this.viewlet?.open(x, true)]. *)
Definition viewletOpen (viewlet : bool) (x : RenderableMatch) (w : World) : World :=
  if viewlet then call (ViewletOpen x true) w else w.

(** [ReplaceActionRunner.performReplace], for a runner with or without a
    viewlet. [batchReplace] is started and not awaited. *)
Definition performReplace (fuel : nat) (viewlet : bool) (element : RenderableMatch)
    (w : World) : Outcome World unit :=
  let '(elementsToReplace, _) :=
    getElementsToOperateOnInfo (viewer w) element (sortOrder w) in
  let searchView := getSearchView w in
  let w := match searchView with
           | Some _ => mutate (batchReplace elementsToReplace) w
           | None => w
           end in
  match last elementsToReplace with
  | Some currentBottomFocusElement =>
      if instanceofMatch currentBottomFocusElement then
        match getElementToFocusAfterReplace fuel (viewer w) currentBottomFocusElement with
        | None => OutOfFuel
        | Some elementToFocus =>
            let w := match elementToFocus with
                     | Some x => focusAndSelect x w
                     | None => w
                     end in
            match getElementToShowReplacePreview (viewer w) elementToFocus
                    currentBottomFocusElement (treeLayout w) with
            | Done elementToShowReplacePreview v =>
                let w := call DomFocus (with_viewer v w) in
                match elementToShowReplacePreview with
                | Some preview =>
                    if negb (useReplacePreview w)
                       || hasToOpenFile w currentBottomFocusElement
                    then Done tt (viewletOpen viewlet currentBottomFocusElement w)
                    else Done tt (call (OpenReplacePreview preview true) w)
                | None => Done tt (viewletOpen viewlet currentBottomFocusElement w)
                end
            | Throws e v => Throws e (with_viewer v w)
            | OutOfFuel => OutOfFuel
            end
        end
      else
        match getElementToFocusAfterRemoved TheReplaceRunner fuel (viewer w)
                currentBottomFocusElement (treeLayout w) with
        | Done nextFocusElement v =>
            let w := with_viewer v w in
            let w := match nextFocusElement with
                     | Some x => focusAndSelect x w
                     | None => w
                     end in
            let w := call DomFocus w in
            if instanceofFileMatch element
            then Done tt (viewletOpen viewlet element w)
            else Done tt w
        | Throws e v => Throws e (with_viewer v w)
        | OutOfFuel => OutOfFuel
        end
  | None => Throws notAFunction w
  end.

End Actions.

Arguments searchResult {SearchResult} _.
Arguments isTreeLayoutViewVisible {SearchResult} _.
Arguments viewer {SearchResult} _.
Arguments activeSearchView {SearchResult} _.
Arguments sortOrder {SearchResult} _.
Arguments useReplacePreview {SearchResult} _.
Arguments activeEditorResource {SearchResult} _.
Arguments calls {SearchResult} _.
Arguments with_viewer {SearchResult} v w.
Arguments call {SearchResult} c w.
Arguments mutate {SearchResult} f w.
Arguments getSearchView {SearchResult} w.
Arguments treeLayout {SearchResult} w.
Arguments focusAndSelect {SearchResult} x w.
Arguments reselect {H SearchResult} fuel elementsToRemove rest w.
Arguments RemoveAction_run {H SearchResult} batchRemove fuel element w.
Arguments hasToOpenFile {H SearchResult} w currBottomElem.
Arguments viewletOpen {SearchResult} viewlet x w.
Arguments performReplace {H SearchResult} batchReplace fuel viewlet element w.

(** *** The widget: rows, elements and expansion *)

Lemma TreeNode_ind (P : TreeNode -> Prop) :
  (forall e c ch, Forall P ch -> P (Node e c ch)) -> forall n, P n.
Proof.
  intros HN. fix IH 1. intros [e c ch]. apply HN.
  induction ch as [|n ch IHch]; constructor; [apply IH|exact IHch].
Qed.

Lemma elementsOf_expandIn x n : elementsOf (expandIn x n) = elementsOf n.
Proof.
  induction n as [e c ch IH] using TreeNode_ind. simpl. f_equal. f_equal.
  rewrite map_map. induction IH as [|n ch Hn _ IHch]; simpl; [reflexivity|].
  rewrite Hn, IHch. reflexivity.
Qed.

Lemma elements_expand x v : elements (expand x v) = elements v.
Proof.
  unfold elements, expand. simpl. rewrite map_map. f_equal.
  apply map_ext. intros n. apply elementsOf_expandIn.
Qed.

Lemma size_expand x v : size (expand x v) = size v.
Proof. unfold size. rewrite elements_expand. reflexivity. Qed.

Lemma rowsOf_sublist n : rowsOf n `sublist_of` elementsOf n.
Proof.
  induction n as [e c ch IH] using TreeNode_ind. simpl.
  apply sublist_skip. destruct c; [apply sublist_nil_l|].
  induction IH as [|n ch Hn _ IHch]; simpl; [reflexivity|].
  apply sublist_app; assumption.
Qed.

Lemma rows_sublist v : rows v `sublist_of` elements v.
Proof.
  unfold rows, elements. induction (roots v) as [|n f IH]; simpl; [reflexivity|].
  apply sublist_app; [apply rowsOf_sublist|exact IH].
Qed.

Lemma length_rows v : length (rows v) <= size v.
Proof. apply sublist_length, rows_sublist. Qed.

Lemma expandIn_absent x n : x ∉ elementsOf n -> expandIn x n = n.
Proof.
  induction n as [e c ch IH] using TreeNode_ind. simpl. intros Hx.
  apply not_elem_of_cons in Hx as [Hne Hx].
  destruct (decide (e = x)) as [->|_]; [congruence|]. f_equal.
  induction IH as [|n ch Hn _ IHch]; simpl in *; [reflexivity|].
  apply not_elem_of_app in Hx as [Hx1 Hx2].
  rewrite Hn, IHch by assumption. reflexivity.
Qed.

Lemma expandIn_forest_absent x f :
  x ∉ concat (map elementsOf f) -> map (expandIn x) f = f.
Proof.
  induction f as [|n f IH]; simpl; [reflexivity|]. intros Hx.
  apply not_elem_of_app in Hx as [Hx1 Hx2].
  rewrite expandIn_absent, IH by assumption. reflexivity.
Qed.


Lemma elem_of_middle {A} (x : A) (l k : list A) : x ∈ l ++ x :: k.
Proof. apply elem_of_app. right. apply list_elem_of_here. Qed.

Lemma forestRows_in_elements x f :
  x ∈ concat (map rowsOf f) -> x ∈ concat (map elementsOf f).
Proof.
  intros Hx. eapply elem_of_sublist; [exact Hx|].
  apply (rows_sublist {| roots := f; selection := []; focus := [] |}).
Qed.











(** *** The two loops of [getNextElementAfterRemoved] *)

(** A class test as a decidable property of rows. *)
Definition isA (K : RenderableMatch -> bool) (x : RenderableMatch) : Prop := K x = true.

#[global] Instance is_dec K x : Decision (isA K x).
Proof. unfold isA. apply _. Defined.

(** The first row of a class among some rows, if any. *)
Definition firstOf (K : RenderableMatch -> bool) (l : list RenderableMatch)
    : option RenderableMatch :=
  snd <$> list_find (isA K) l.


Lemma firstOf_nil K : firstOf K [] = None.
Proof. reflexivity. Qed.

Lemma firstOf_here K x l : K x = true -> firstOf K (x :: l) = Some x.
Proof.
  intros Hx. unfold firstOf. simpl.
  destruct (decide (isA K x)) as [_|Hn]; [reflexivity|]. elim Hn. exact Hx.
Qed.

Lemma firstOf_later K x l : K x = false -> firstOf K (x :: l) = firstOf K l.
Proof.
  intros Hx. unfold firstOf. simpl.
  destruct (decide (isA K x)) as [Hy|_]; [unfold isA in Hy; congruence|].
  destruct (list_find (isA K) l) as [[k y]|]; reflexivity.
Qed.


Lemma current_nonneg v n : (0 <= n)%Z -> current v n = rows v !! Z.to_nat n.
Proof. intros Hn. unfold current. destruct (Z.ltb_spec n 0); [lia|reflexivity]. Qed.

Lemma nextUntil_spec K fuel v n :
  (-1 <= n)%Z ->
  (Z.of_nat (length (rows v)) - n <= Z.of_nat fuel)%Z -> 0 < fuel ->
  exists n', nextUntil K fuel v n = Some n' /\
    current v n' = firstOf K (drop (Z.to_nat (n + 1)) (rows v)).
Proof.
  revert n. induction fuel as [|fuel IH]; intros n Hn Hfuel Hpos; [lia|].
  simpl. rewrite current_nonneg by lia.
  destruct (rows v !! Z.to_nat (n + 1)) as [x|] eqn:Hx.
  - rewrite (drop_S _ _ _ Hx). apply lookup_lt_Some in Hx as Hlt.
    destruct (K x) eqn:HK.
    + exists (n + 1)%Z. split; [reflexivity|].
      rewrite current_nonneg, Hx, firstOf_here by (lia || assumption). reflexivity.
    + destruct (IH (n + 1)%Z) as (n' & Hrun & Hcur); [lia..|].
      exists n'. split; [exact Hrun|].
      rewrite Hcur, firstOf_later by exact HK.
      replace (Z.to_nat (n + 1 + 1)) with (S (Z.to_nat (n + 1))) by lia.
      reflexivity.
  - exists (n + 1)%Z. split; [reflexivity|].
    rewrite current_nonneg, Hx by lia.
    rewrite drop_ge by (apply lookup_ge_None; exact Hx). reflexivity.
Qed.

Lemma nextExpanding_terminates fuel v n :
  (-1 <= n)%Z ->
  (Z.of_nat (size v) - n <= Z.of_nat fuel)%Z -> 0 < fuel ->
  exists v' n', nextExpanding fuel v n = Some (v', n') /\
    elements v' = elements v /\ selection v' = selection v /\ focus v' = focus v.
Proof.
  revert v n. induction fuel as [|fuel IH]; intros v n Hn Hfuel Hpos; [lia|].
  simpl. rewrite current_nonneg by lia.
  destruct (rows v !! Z.to_nat (n + 1)) as [x|] eqn:Hx; [|eauto 10].
  destruct (instanceofMatch x); [eauto 10|].
  apply lookup_lt_Some in Hx as Hlt. pose proof (length_rows v) as Hle.
  destruct (IH (expand x v) (n + 1)%Z) as (v' & n' & Hrun & He & Hs & Hf);
    [lia|rewrite size_expand; lia|lia|].
  exists v', n'. split; [exact Hrun|].
  rewrite He, Hs, Hf, elements_expand. auto.
Qed.




Lemma getListIndex_ge v x : (-1 <= getListIndex v x)%Z.
Proof.
  unfold getListIndex. destruct (list_find _ (rows v)) as [[i y]|]; lia.
Qed.

Lemma getNextElementAfterRemoved_terminates fuel v element :
  size v < fuel ->
  exists r v', getNextElementAfterRemoved fuel v element = Done r v' /\
    elements v' = elements v /\ selection v' = selection v /\ focus v' = focus v.
Proof.
  intros Hfuel. pose proof (getListIndex_ge v element) as Hge.
  pose proof (length_rows v) as Hle.
  unfold getNextElementAfterRemoved, navigate.
  destruct (instanceofFolderMatch element);
    [|destruct (instanceofFileMatch element)].
  - destruct (nextUntil_spec instanceofFolderMatch fuel v (getListIndex v element))
      as (n' & -> & _); [lia..|]. eauto 10.
  - destruct (nextUntil_spec instanceofFileMatch fuel v (getListIndex v element))
      as (n' & -> & _); [lia..|]. eauto 10.
  - destruct (nextExpanding_terminates fuel v (getListIndex v element))
      as (v' & n' & -> & He & Hs & Hf); [lia..|]. eauto 10.
Qed.


(** [filter(x => x !== null)] keeps the entries that are not [null], as
    they come. *)
Lemma nonNull_filter (l : list (option RenderableMatch)) :
  Some <$> nonNull l = filter is_Some l.
Proof.
  unfold nonNull. induction l as [|[x|] l IH]; [reflexivity| |].
  - rewrite filter_cons_True by eauto. csimpl. rewrite IH. reflexivity.
  - rewrite filter_cons_False by (intros [y Hy]; discriminate). exact IH.
Qed.

(** *** Sorted lists, entry by entry *)

Lemma Sorted_adjacent {A} (compare : A -> A -> Z) l i a b :
  Sorted (JS.noLater compare) l ->
  l !! i = Some a -> l !! S i = Some b -> (compare a b <= 0)%Z.
Proof.
  intros Hl. revert i. induction Hl as [|x l Hl IH Hx]; intros i Ha Hb; [discriminate|].
  destruct i as [|i]; simpl in *.
  - injection Ha as ->. destruct Hx as [|y l' Hxy]; [discriminate|].
    simpl in Hb. injection Hb as ->. exact Hxy.
  - apply (IH i); assumption.
Qed.

Lemma StronglySorted_lookup {A} (compare : A -> A -> Z) l i j a b :
  StronglySorted (JS.noLater compare) l ->
  i < j -> l !! i = Some a -> l !! j = Some b -> (compare a b <= 0)%Z.
Proof.
  intros Hl. revert i j.
  induction Hl as [|x l Hl IH Hx]; intros i j Hij Ha Hb; [discriminate|].
  destruct j as [|j]; [lia|]. simpl in Hb.
  destruct i as [|i]; simpl in Ha.
  - injection Ha as ->. rewrite Forall_forall in Hx.
    apply Hx, (list_elem_of_lookup_2 _ j), Hb.
  - apply (IH i j); [lia|assumption..].
Qed.

Section ActionFacts.

Context `{SearchModel}.

Lemma expandPrevious_elements K element n p v :
  elements (expandPrevious K element (n, p, v)).2 = elements v.
Proof.
  unfold expandPrevious. destruct p as [x|]; [|reflexivity].
  destruct (instanceofMatch element && K x); [|reflexivity].
  simpl. apply elements_expand.
Qed.

Lemma getPreviousElementAfterRemoved_elements v element isTree :
  elements (getPreviousElementAfterRemoved v element isTree).2 = elements v.
Proof.
  unfold getPreviousElementAfterRemoved.
  repeat match goal with
         | |- context [if ?b then _ else _] => destruct b
         end;
    repeat match goal with
           | |- context [expandPrevious ?K ?e (?n, ?p, ?v)] =>
               let E := fresh "E" in
               pose proof (expandPrevious_elements K e n p v) as E;
               destruct (expandPrevious K e (n, p, v)) as [[? ?] ?];
               simpl in E
           end;
    simpl; congruence.
Qed.

(** C2. On an action, with fuel for the loop, [getNextElementAfterRemoved]
    returns, and [getElementToFocusAfterRemoved] returns what it returned
    when that is not [null], leaving the widget as that call left it;
    otherwise it returns what [getPreviousElementAfterRemoved] returns on
    the widget as the first call left it. *)
Theorem getElementToFocusAfterRemoved_next_else_previous (fuel : nat) (v : Viewer)
    (elementToRemove : RenderableMatch) (isTreeViewVisible : bool) :
  size v < fuel ->
  exists next v1,
    getNextElementAfterRemoved fuel v elementToRemove = Done next v1 /\
    getElementToFocusAfterRemoved AnAction fuel v elementToRemove isTreeViewVisible
    = match next with
      | Some x => Done (Some x) v1
      | None =>
          Done (getPreviousElementAfterRemoved v1 elementToRemove isTreeViewVisible).1
               (getPreviousElementAfterRemoved v1 elementToRemove isTreeViewVisible).2
      end.
Proof.
  intros Hfuel.
  destruct (getNextElementAfterRemoved_terminates fuel v elementToRemove Hfuel)
    as (r & v1 & Hrun & _).
  exists r, v1. split; [exact Hrun|].
  unfold getElementToFocusAfterRemoved. simpl. rewrite Hrun.
  destruct r as [x|]; [reflexivity|].
  destruct (getPreviousElementAfterRemoved v1 elementToRemove isTreeViewVisible).
  reflexivity.
Qed.

(** C8. [getElementsToOperateOnInfo] answers the selection without its
    [null] entries, sorted by [searchComparer] under the sort order (a
    rearrangement of those entries), when the selection has more than one
    entry and the current element is one of them, and the list of the
    current element alone in every other case; this holds whether the
    entries are counted with or without the [null] ones. The flag
    [mustReselect] is [true] exactly when the current element is among
    the entries that are not [null]. Sorted means what [sort] promises for
    a comparator that orders consistently: when [searchComparer] never
    puts each of two elements after the other, no entry of the sorted
    selection is followed by one that the comparator puts before it, and
    when [searchComparer] is transitive as well, every entry comes no
    later, by the comparator, than every entry after it; the answer is
    ordered in that way in both cases of the function. *)
Theorem getElementsToOperateOnInfo_spec (v : Viewer) (currElement : RenderableMatch)
    (order : SortOrder) :
  let chosen := nonNull (selection v) in
  let sorted := JS.js_sort (fun a b => searchComparer a b order) chosen in
  let info := getElementsToOperateOnInfo v currElement order in
  sorted ≡ₚ chosen /\
  (1 < length chosen /\ currElement ∈ chosen -> info.1 = sorted) /\
  (~ (1 < length chosen /\ currElement ∈ chosen) -> info.1 = [currElement]) /\
  (1 < length (selection v) /\ Some currElement ∈ selection v -> info.1 = sorted) /\
  (~ (1 < length (selection v) /\ Some currElement ∈ selection v) ->
     info.1 = [currElement]) /\
  (info.2 = true <-> currElement ∈ chosen) /\
  (JS.total (fun a b => searchComparer a b order) ->
     (forall i a b, sorted !! i = Some a -> sorted !! S i = Some b ->
                    (searchComparer a b order <= 0)%Z) /\
     (forall i a b, info.1 !! i = Some a -> info.1 !! S i = Some b ->
                    (searchComparer a b order <= 0)%Z)) /\
  (JS.total (fun a b => searchComparer a b order) ->
   JS.transitive (fun a b => searchComparer a b order) ->
     (forall i j a b, i < j -> sorted !! i = Some a -> sorted !! j = Some b ->
                      (searchComparer a b order <= 0)%Z) /\
     (forall i j a b, i < j -> info.1 !! i = Some a -> info.1 !! j = Some b ->
                      (searchComparer a b order <= 0)%Z)) /\
  Some <$> chosen = filter is_Some (selection v).
Proof.
  intros chosen sorted info.
  assert (Hperm : sorted ≡ₚ chosen) by apply JS.js_sort_perm.
  assert (Hlen : length sorted = length chosen) by (rewrite Hperm; reflexivity).
  assert (Hin : currElement ∈ sorted <-> currElement ∈ chosen) by (rewrite Hperm; reflexivity).
  assert (Hraw : Some currElement ∈ selection v <-> currElement ∈ chosen).
  { unfold chosen, nonNull. rewrite list_elem_of_omap. split.
    - intros Hs. exists (Some currElement). split; [exact Hs|reflexivity].
    - intros (o & Ho & Heq). subst o. exact Ho. }
  assert (Hshort : length chosen <= length (selection v)).
  { unfold chosen, nonNull. clear.
    induction (selection v) as [|[x|] l IH]; csimpl; lia. }
  assert (Hcode : info.1 = if bool_decide (1 < length chosen /\ currElement ∈ chosen)
                           then sorted else [currElement]).
  { unfold info, getElementsToOperateOnInfo, includes. simpl.
    fold chosen. fold sorted. rewrite Hlen.
    destruct (Nat.ltb_spec 1 (length chosen)) as [Hl|Hl];
      destruct (decide (currElement ∈ sorted)) as [Hs|Hs];
      [rewrite (bool_decide_eq_true_2 _ Hs)|rewrite (bool_decide_eq_false_2 _ Hs)
      |rewrite (bool_decide_eq_true_2 _ Hs)|rewrite (bool_decide_eq_false_2 _ Hs)];
      simpl; case_bool_decide as Hd; try reflexivity; exfalso;
      rewrite Hin in Hs; try (destruct Hd; (lia || tauto)); apply Hd; tauto. }
  split; [exact Hperm|].
  split. { intros Hc. rewrite Hcode, bool_decide_eq_true_2 by exact Hc. reflexivity. }
  split. { intros Hc. rewrite Hcode, bool_decide_eq_false_2 by exact Hc. reflexivity. }
  split.
  { intros [Hl Hs]. rewrite Hcode. apply Hraw in Hs.
    case_bool_decide as Hd; [reflexivity|].
    (* one entry that is not null, the current element *)
    assert (Hone : length chosen <= 1) by (destruct (decide (1 < length chosen)); [tauto|lia]).
    unfold sorted. destruct chosen as [|a [|b l]]; simpl in *; [inversion Hs| |lia].
    apply list_elem_of_singleton in Hs. subst a. reflexivity. }
  split.
  { intros Hc. rewrite Hcode, bool_decide_eq_false_2; [reflexivity|].
    intros [Hl Hs]. apply Hc. split; [lia|apply Hraw, Hs]. }
  split.
  { unfold info, getElementsToOperateOnInfo, includes. simpl.
    fold chosen. fold sorted. rewrite bool_decide_eq_true. exact Hin. }
  split.
  - intros Htotal.
    assert (Hs : forall i a b, sorted !! i = Some a -> sorted !! S i = Some b ->
                               (searchComparer a b order <= 0)%Z).
    { intros i a b. apply (Sorted_adjacent (fun a b => searchComparer a b order)).
      apply JS.js_sort_Sorted, Htotal. }
    split; [exact Hs|]. rewrite Hcode. case_bool_decide; [exact Hs|].
    intros [|i] a b Ha Hb; discriminate.
  - split; [|apply nonNull_filter]. intros Htotal Htrans.
    assert (Hs : forall i j a b, i < j -> sorted !! i = Some a -> sorted !! j = Some b ->
                                 (searchComparer a b order <= 0)%Z).
    { intros i j a b. apply (StronglySorted_lookup (fun a b => searchComparer a b order)).
      apply JS.js_sort_StronglySorted; assumption. }
    split; [exact Hs|]. rewrite Hcode. case_bool_decide; [exact Hs|].
    intros [|i] [|j] a b Hij Ha Hb; try discriminate; lia.
Qed.

(** *** The model under removal and replacement *)

Context {SearchResult : Type}.
Variable batchRemove : list RenderableMatch -> SearchResult -> SearchResult.
Variable batchReplace : list RenderableMatch -> SearchResult -> SearchResult.

(** The search-result model an action can reach, if a search view is active. *)
Definition modelOf (w : World SearchResult) : option SearchResult :=
  searchResult <$> activeSearchView w.

(** The elements [RemoveAction.run] and [performReplace] operate on. *)
Definition elementsToOperateOn (w : World SearchResult) (element : RenderableMatch)
    : list RenderableMatch :=
  (getElementsToOperateOnInfo (viewer w) element (sortOrder w)).1.

Lemma modelOf_with_viewer v (w : World SearchResult) : modelOf (with_viewer v w) = modelOf w.
Proof. reflexivity. Qed.

Lemma modelOf_call c (w : World SearchResult) : modelOf (call c w) = modelOf w.
Proof. reflexivity. Qed.

Lemma modelOf_focusAndSelect x (w : World SearchResult) :
  modelOf (focusAndSelect x w) = modelOf w.
Proof. reflexivity. Qed.

Lemma modelOf_viewletOpen b x (w : World SearchResult) :
  modelOf (viewletOpen b x w) = modelOf w.
Proof. destruct b; reflexivity. Qed.

Lemma modelOf_mutate f (w : World SearchResult) : modelOf (mutate f w) = f <$> modelOf w.
Proof. unfold modelOf, mutate. simpl. destruct (activeSearchView w); reflexivity. Qed.

Lemma modelOf_absent f (w : World SearchResult) :
  getSearchView w = None -> modelOf w = f <$> modelOf w.
Proof. unfold modelOf, getSearchView. intros ->. reflexivity. Qed.

Create Rewrite HintDb frame.

#[local] Hint Rewrite modelOf_with_viewer modelOf_call modelOf_focusAndSelect
  modelOf_viewletOpen modelOf_mutate : frame.

Lemma getElementToFocusAfterRemoved_terminates fuel v element isTree :
  size v < fuel ->
  exists r v', getElementToFocusAfterRemoved AnAction fuel v element isTree = Done r v' /\
    elements v' = elements v.
Proof.
  intros Hfuel.
  destruct (getNextElementAfterRemoved_terminates fuel v element Hfuel)
    as (r & v1 & Hrun & He & _).
  unfold getElementToFocusAfterRemoved. simpl. rewrite Hrun.
  destruct r as [x|]; [eauto|].
  pose proof (getPreviousElementAfterRemoved_elements v1 element isTree) as Hp.
  destruct (getPreviousElementAfterRemoved v1 element isTree) as [p v2].
  simpl in Hp. exists p, v2. split; [reflexivity|congruence].
Qed.

Lemma reselect_frame fuel els rest (w : World SearchResult) :
  size (viewer w) < fuel ->
  exists w', reselect fuel els rest w = Done tt w' /\ modelOf w' = modelOf w /\
             getSearchView w' = getSearchView w.
Proof.
  revert w. induction rest as [|x rest IH]; intros w Hfuel; simpl; [eauto|].
  destruct (arrayContainsElementOrParent x els); [|apply IH, Hfuel].
  destruct (getElementToFocusAfterRemoved_terminates fuel (viewer w) x
              (treeLayout w) Hfuel) as (r & v' & -> & He).
  assert (Hfuel' : size (viewer (with_viewer v' w)) < fuel).
  { unfold size in *. simpl. rewrite He. exact Hfuel. }
  destruct r as [y|]; [|apply (IH _ Hfuel')].
  destruct (arrayContainsElementOrParent y els); simpl; [apply (IH _ Hfuel')|].
  eauto.
Qed.

Lemma getElementsToOperateOnInfo_nonempty v element order :
  (getElementsToOperateOnInfo v element order).1 <> [].
Proof.
  unfold getElementsToOperateOnInfo. simpl.
  destruct (Nat.ltb_spec 1 (length (JS.js_sort (fun a b => searchComparer a b order)
                                      (nonNull (selection v))))) as [Hl|Hl];
    simpl; [|discriminate].
  destruct (includes element _); simpl; [|discriminate].
  intros Hnil. rewrite Hnil in Hl. simpl in Hl. lia.
Qed.

Lemma focusAfterReplaceLoop_terminates fuel v currElement n fileMatched :
  (-1 <= n)%Z ->
  (Z.of_nat (length (rows v)) - n <= Z.of_nat fuel)%Z -> 0 < fuel ->
  is_Some (focusAfterReplaceLoop fuel v currElement n fileMatched).
Proof.
  revert n fileMatched.
  induction fuel as [|fuel IH]; intros n fileMatched Hn Hfuel Hpos; [lia|].
  simpl.
  match goal with
  | |- context [let '(_, _) := ?p in _] => destruct p as [fm br]
  end.
  destruct br; [eauto|].
  rewrite (current_nonneg v (n + 1)) by lia.
  destruct (rows v !! Z.to_nat (n + 1)) as [x|] eqn:Hx; [|eauto].
  apply lookup_lt_Some in Hx. apply IH; lia.
Qed.

(** C6. With fuel for the loops, [RemoveAction.run] returns, and the model
    it leaves is the model it found with [batchRemove] applied once, to
    the elements operated on; [performReplace] returns or throws, and the
    model it leaves is the model it found with [batchReplace] applied
    once, to those elements. Nothing else the two handlers do (the
    traversals of the navigator, the lookups of parents, the expansion of
    rows, the changes of focus and selection, the calls that open an
    editor) shows in the model; without an active search view there is no
    model and none appears. *)
Theorem model_changed_only_by_batch_calls (fuel : nat) (viewlet : bool)
    (element : RenderableMatch) (w : World SearchResult) :
  size (viewer w) < fuel ->
  (exists w', RemoveAction_run batchRemove fuel element w = Done tt w' /\
     modelOf w' = batchRemove (elementsToOperateOn w element) <$> modelOf w) /\
  (exists w',
     (performReplace batchReplace fuel viewlet element w = Done tt w' \/
      exists e, performReplace batchReplace fuel viewlet element w = Throws e w') /\
     modelOf w' = batchReplace (elementsToOperateOn w element) <$> modelOf w).
Proof.
  intros Hfuel. unfold elementsToOperateOn.
  pose proof (getElementsToOperateOnInfo_nonempty (viewer w) element (sortOrder w))
    as Hne.
  split.
  - unfold RemoveAction_run.
    destruct (getElementsToOperateOnInfo (viewer w) element (sortOrder w))
      as [els must]. simpl in *.
    assert (Hlen : (length els =? 0) = false).
    { destruct els; [congruence|reflexivity]. }
    rewrite Hlen.
    assert (Hre : exists w1,
              (if must then reselect fuel els els w else Done tt w) = Done tt w1 /\
              modelOf w1 = modelOf w /\ getSearchView w1 = getSearchView w).
    { destruct must; [apply reselect_frame, Hfuel|eauto]. }
    destruct Hre as (w1 & -> & Hm & Hv).
    destruct (getSearchView w) as [sv|] eqn:Hsv; eexists; (split; [reflexivity|]);
      autorewrite with frame; rewrite Hm; [reflexivity|].
    apply modelOf_absent, Hsv.
  - unfold performReplace.
    destruct (getElementsToOperateOnInfo (viewer w) element (sortOrder w))
      as [els must]. simpl in *.
    set (w1 := match getSearchView w with
               | Some _ => mutate (batchReplace els) w
               | None => w
               end).
    assert (Hm1 : modelOf w1 = batchReplace els <$> modelOf w).
    { unfold w1. destruct (getSearchView w) eqn:Hsv;
        [apply modelOf_mutate|apply modelOf_absent, Hsv]. }
    assert (Hv1 : viewer w1 = viewer w).
    { unfold w1. destruct (getSearchView w); reflexivity. }
    clearbody w1.
    destruct (last els) as [bottom|]; [|eauto 10].
    destruct (instanceofMatch bottom).
    + pose proof (length_rows (viewer w)) as Hle.
      destruct (focusAfterReplaceLoop_terminates fuel (viewer w1) bottom
                  (navigate (viewer w1) None) false) as [ef Hef];
        [simpl; lia|rewrite Hv1; simpl; lia|lia|].
      unfold getElementToFocusAfterReplace. rewrite Hef.
      set (w2 := match ef with Some x => focusAndSelect x w1 | None => w1 end).
      assert (Hm2 : modelOf w2 = modelOf w1) by (unfold w2; destruct ef; reflexivity).
      clearbody w2.
      destruct (getElementToShowReplacePreview (viewer w2) ef bottom (treeLayout w2))
        as [preview v2|e v2|] eqn:Hp.
      * destruct preview as [pv|];
          [destruct (negb (useReplacePreview _) || hasToOpenFile _ bottom)|];
          eexists; (split; [left; reflexivity|]);
          autorewrite with frame; congruence.
      * eexists. split; [right; eauto|]. autorewrite with frame. congruence.
      * exfalso. unfold getElementToShowReplacePreview in Hp.
        destruct (hasSameParent ef bottom); [discriminate|].
        destruct ef as [x|]; [|discriminate].
        destruct (this_getPreviousElementAfterRemoved _ _ _ _) as [p v3].
        destruct (hasSameParent p bottom); discriminate.
    + simpl. eexists. split; [right; eauto|].
      autorewrite with frame. exact Hm1.
Qed.

(** X15. What the detached call in [performReplace] comes to: when the last
    element operated on is a file match or a folder match, the runner
    calls [getElementToFocusAfterRemoved] as its own property, the lookup
    of [getNextElementAfterRemoved] in the runner finds nothing, and the
    handler throws once [batchReplace] has been started. *)
Lemma performReplace_detached_call_throws (fuel : nat) (viewlet : bool)
    (element bottom : RenderableMatch) (w : World SearchResult) :
  last (elementsToOperateOn w element) = Some bottom ->
  instanceofMatch bottom = false ->
  performReplace batchReplace fuel viewlet element w
  = Throws notAFunction
      (match getSearchView w with
       | Some _ => mutate (batchReplace (elementsToOperateOn w element)) w
       | None => w
       end).
Proof.
  unfold elementsToOperateOn, performReplace. intros Hlast Hk.
  destruct (getElementsToOperateOnInfo (viewer w) element (sortOrder w))
    as [els must]. simpl in *.
  rewrite Hlast, Hk. simpl.
  destruct w as [v [sv|] order preview editor log]; reflexivity.
Qed.

End ActionFacts.

(** *** Focus, selection and the calls of the two handlers *)

Section HandlerFacts.

Context `{SearchModel} {SearchResult : Type}.
Variable batchRemove : list RenderableMatch -> SearchResult -> SearchResult.
Variable batchReplace : list RenderableMatch -> SearchResult -> SearchResult.

(** X9. The current element is always among the elements to operate on, so
    that list is never empty, and the test on its length at the start
    of [RemoveAction.run] never sends the handler back early. *)
Theorem getElementsToOperateOnInfo_holds_current (v : Viewer)
    (currElement : RenderableMatch) (order : SortOrder) :
  currElement ∈ (getElementsToOperateOnInfo v currElement order).1 /\
  (getElementsToOperateOnInfo v currElement order).1 <> [] /\
  (length (getElementsToOperateOnInfo v currElement order).1 =? 0) = false.
Proof.
  assert (Hin : currElement ∈ (getElementsToOperateOnInfo v currElement order).1).
  { unfold getElementsToOperateOnInfo, includes. simpl.
    destruct (1 <? _); simpl; [|apply list_elem_of_here].
    case_bool_decide as Hd; simpl; [exact Hd|apply list_elem_of_here]. }
  split; [exact Hin|].
  destruct (getElementsToOperateOnInfo v currElement order).1 as [|x l];
    [inversion Hin|]. split; [discriminate|reflexivity].
Qed.

Lemma expandPrevious_widget K element n p v :
  selection (expandPrevious K element (n, p, v)).2 = selection v /\
  focus (expandPrevious K element (n, p, v)).2 = focus v /\
  (instanceofMatch element = false -> (expandPrevious K element (n, p, v)).2 = v).
Proof.
  unfold expandPrevious. destruct p as [x|]; [|auto].
  destruct (instanceofMatch element); simpl; [|auto].
  destruct (K x); simpl; auto. repeat split. discriminate.
Qed.

(** X10. [getPreviousElementAfterRemoved] keeps the elements, the selection and
    the focus of the widget, and expands a row only for an element that is
    a line match: for a file match or a folder match the widget comes back
    as it was given. *)
Theorem getPreviousElementAfterRemoved_widget (v : Viewer)
    (element : RenderableMatch) (isTreeViewVisible : bool) :
  elements (getPreviousElementAfterRemoved v element isTreeViewVisible).2 = elements v /\
  selection (getPreviousElementAfterRemoved v element isTreeViewVisible).2 = selection v /\
  focus (getPreviousElementAfterRemoved v element isTreeViewVisible).2 = focus v /\
  (instanceofMatch element = false ->
     (getPreviousElementAfterRemoved v element isTreeViewVisible).2 = v).
Proof.
  split; [apply getPreviousElementAfterRemoved_elements|].
  unfold getPreviousElementAfterRemoved.
  repeat match goal with
         | |- context [if ?b then _ else _] => destruct b
         end;
    repeat match goal with
           | |- context [expandPrevious ?K ?e (?n, ?p, ?v)] =>
               let E := fresh "E" in
               pose proof (expandPrevious_widget K e n p v) as E;
               destruct (expandPrevious K e (n, p, v)) as [[? ?] ?];
               simpl in E; destruct E as (? & ? & ?)
           end;
    simpl; repeat split; try congruence;
    intros Hk;
    repeat match goal with
           | Himp : instanceofMatch element = false -> _ |- _ =>
               specialize (Himp Hk)
           end; congruence.
Qed.

Lemma getPreviousElementAfterRemoved_selection_focus v element isTree :
  selection (getPreviousElementAfterRemoved v element isTree).2 = selection v /\
  focus (getPreviousElementAfterRemoved v element isTree).2 = focus v.
Proof.
  unfold getPreviousElementAfterRemoved.
  repeat match goal with
         | |- context [if ?b then _ else _] => destruct b
         end;
    repeat match goal with
           | |- context [expandPrevious ?K ?e (?n, ?p, ?v)] =>
               let E := fresh "E" in
               pose proof (expandPrevious_widget K e n p v) as E;
               destruct (expandPrevious K e (n, p, v)) as [[? ?] ?];
               simpl in E; destruct E as (? & ? & _)
           end;
    simpl; split; congruence.
Qed.

Lemma getElementToFocusAfterRemoved_widget fuel v element isTree :
  size v < fuel ->
  exists r v', getElementToFocusAfterRemoved AnAction fuel v element isTree = Done r v' /\
    elements v' = elements v /\ selection v' = selection v /\ focus v' = focus v.
Proof.
  intros Hfuel.
  destruct (getNextElementAfterRemoved_terminates fuel v element Hfuel)
    as (r & v1 & Hrun & He & Hs & Hf).
  unfold getElementToFocusAfterRemoved. simpl. rewrite Hrun.
  destruct r as [x|]; [eauto 10|].
  pose proof (getPreviousElementAfterRemoved_elements v1 element isTree) as He'.
  destruct (getPreviousElementAfterRemoved_selection_focus v1 element isTree)
    as (Hs' & Hf').
  destruct (getPreviousElementAfterRemoved v1 element isTree) as [p v2].
  simpl in *. exists p, v2. repeat split; congruence.
Qed.

Lemma reselect_focus fuel els rest (w : World SearchResult) :
  size (viewer w) < fuel ->
  exists w', reselect fuel els rest w = Done tt w' /\
    getSearchView w' = getSearchView w /\
    ((focus (viewer w') = focus (viewer w) /\
      selection (viewer w') = selection (viewer w) /\
      calls w' = calls w) \/
     exists x, arrayContainsElementOrParent x els = false /\
       focus (viewer w') = [x] /\ selection (viewer w') = [Some x] /\
       calls w' = calls w ++ [Reveal x]).
Proof.
  revert w. induction rest as [|y rest IH]; intros w Hfuel; simpl; [eauto 10|].
  destruct (arrayContainsElementOrParent y els); [|apply IH, Hfuel].
  destruct (getElementToFocusAfterRemoved_widget fuel (viewer w) y
              (treeLayout w) Hfuel) as (r & v' & -> & He & Hs & Hf).
  assert (Hcont : exists w', reselect fuel els rest (with_viewer v' w) = Done tt w' /\
            getSearchView w' = getSearchView w /\
            ((focus (viewer w') = focus (viewer w) /\
              selection (viewer w') = selection (viewer w) /\
              calls w' = calls w) \/
             exists x, arrayContainsElementOrParent x els = false /\
               focus (viewer w') = [x] /\ selection (viewer w') = [Some x] /\
               calls w' = calls w ++ [Reveal x])).
  { destruct (IH (with_viewer v' w)) as (w' & Hrun & Hv & Hcase).
    { unfold size in *. simpl. rewrite He. exact Hfuel. }
    exists w'. split; [exact Hrun|]. split; [exact Hv|].
    simpl in Hcase. rewrite Hs, Hf in Hcase. exact Hcase. }
  destruct r as [x|]; [|exact Hcont].
  destruct (arrayContainsElementOrParent x els) eqn:Hx; simpl; [exact Hcont|].
  eexists. split; [reflexivity|]. split; [reflexivity|].
  right. exists x. repeat split. exact Hx.
Qed.

(** X11. [RemoveAction.run] either leaves focus and selection as they were or
    moves both to one row, which it reveals first, and that row is never
    one of the elements being removed nor below one of them, by the test
    of the search model. Its last call gives the DOM focus to the
    widget. *)
Theorem RemoveAction_run_focus (fuel : nat) (element : RenderableMatch)
    (w : World SearchResult) :
  size (viewer w) < fuel ->
  exists w', RemoveAction_run batchRemove fuel element w = Done tt w' /\
    ((focus (viewer w') = focus (viewer w) /\
      selection (viewer w') = selection (viewer w) /\
      calls w' = calls w ++ [DomFocus]) \/
     exists x,
       arrayContainsElementOrParent x (elementsToOperateOn w element) = false /\
       focus (viewer w') = [x] /\ selection (viewer w') = [Some x] /\
       calls w' = calls w ++ [Reveal x; DomFocus]).
Proof.
  intros Hfuel. unfold elementsToOperateOn, RemoveAction_run.
  pose proof (getElementsToOperateOnInfo_nonempty (viewer w) element (sortOrder w))
    as Hne.
  destruct (getElementsToOperateOnInfo (viewer w) element (sortOrder w))
    as [els must]. simpl in *.
  assert (Hlen : (length els =? 0) = false).
  { destruct els; [congruence|reflexivity]. }
  rewrite Hlen.
  assert (Hre : exists w1,
            (if must then reselect fuel els els w else Done tt w) = Done tt w1 /\
            getSearchView w1 = getSearchView w /\
            ((focus (viewer w1) = focus (viewer w) /\
              selection (viewer w1) = selection (viewer w) /\
              calls w1 = calls w) \/
             exists x, arrayContainsElementOrParent x els = false /\
               focus (viewer w1) = [x] /\ selection (viewer w1) = [Some x] /\
               calls w1 = calls w ++ [Reveal x])).
  { destruct must; [apply reselect_focus, Hfuel|eauto 10]. }
  destruct Hre as (w1 & -> & Hv & Hcase).
  eexists. split; [reflexivity|].
  assert (Hsame : forall w2 : World SearchResult,
            w2 = (match getSearchView w with
                  | Some _ => mutate (batchRemove els) w1
                  | None => w1
                  end) ->
            viewer w2 = viewer w1 /\ calls w2 = calls w1).
  { intros w2 ->. destruct (getSearchView w); split; reflexivity. }
  destruct (Hsame _ eq_refl) as [Hvw Hcl]. simpl. rewrite Hvw, Hcl.
  destruct Hcase as [(Hf & Hs & Hc)|(x & Hx & Hf & Hs & Hc)].
  - left. rewrite Hf, Hs, Hc. auto.
  - right. exists x. rewrite Hf, Hs, Hc, <- app_assoc. auto.
Qed.

(** X12. Removing a row that is not part of the selection removes that row
    alone and touches neither the tree nor focus nor selection: the one
    call made is the one that gives the DOM focus to the widget. No loop
    runs, so this holds for any fuel. *)
Theorem RemoveAction_run_outside_selection (fuel : nat) (element : RenderableMatch)
    (w : World SearchResult) :
  element ∉ nonNull (selection (viewer w)) ->
  elementsToOperateOn w element = [element] /\
  RemoveAction_run batchRemove fuel element w
  = Done tt (call DomFocus
               (match getSearchView w with
                | Some _ => mutate (batchRemove [element]) w
                | None => w
                end)).
Proof.
  intros Hout.
  assert (Hinfo : getElementsToOperateOnInfo (viewer w) element (sortOrder w)
                  = ([element], false)).
  { unfold getElementsToOperateOnInfo, includes.
    assert (Hno : element ∉ JS.js_sort (fun a b => searchComparer a b (sortOrder w))
                             (nonNull (selection (viewer w)))).
    { rewrite JS.js_sort_perm. exact Hout. }
    rewrite (bool_decide_eq_false_2 _ Hno), andb_false_r. reflexivity. }
  unfold elementsToOperateOn, RemoveAction_run. rewrite Hinfo. simpl.
  split; reflexivity.
Qed.

Lemma focusAfterReplaceLoop_on_row fuel v currElement n fileMatched x0 r :
  (0 <= n)%Z -> current v n = Some x0 ->
  focusAfterReplaceLoop fuel v currElement n fileMatched = Some r ->
  exists y, r = Some y /\ y ∈ rows v.
Proof.
  revert n fileMatched x0.
  induction fuel as [|fuel IH]; intros n fileMatched x0 Hn Hcur Hrun; [discriminate|].
  simpl in Hrun. rewrite Hcur in Hrun.
  assert (Hrow : x0 ∈ rows v).
  { rewrite current_nonneg in Hcur by lia. apply list_elem_of_lookup. eauto. }
  match type of Hrun with
  | context [let '(_, _) := ?p in _] => destruct p as [fm br]
  end.
  destruct br; [injection Hrun as <-; eauto|].
  destruct (current v (n + 1)) as [x1|] eqn:Hnext.
  - apply (IH (n + 1)%Z fm x1); [lia|exact Hnext|exact Hrun].
  - injection Hrun as <-. eauto.
Qed.

(** X13. With fuel for the loop [getElementToFocusAfterReplace] returns. Its
    answer is [null] exactly when the widget shows no row, and otherwise
    one of the rows of the widget. *)
Theorem getElementToFocusAfterReplace_is_a_row (fuel : nat) (v : Viewer)
    (currElement : RenderableMatch) :
  length (rows v) < fuel ->
  exists r, getElementToFocusAfterReplace fuel v currElement = Some r /\
    (r = None <-> rows v = []) /\
    (forall y, r = Some y -> y ∈ rows v).
Proof.
  intros Hfuel. unfold getElementToFocusAfterReplace. simpl.
  destruct (focusAfterReplaceLoop_terminates fuel v currElement (-1) false)
    as [r Hr]; [lia..|].
  exists r. split; [exact Hr|].
  destruct fuel as [|fuel]; [lia|]. simpl in Hr.
  change (current v (-1)) with (@None RenderableMatch) in Hr. simpl in Hr.
  change (-1 + 1)%Z with 0%Z in Hr.
  destruct (current v 0) as [x0|] eqn:Hfirst.
  - destruct (focusAfterReplaceLoop_on_row fuel v currElement 0 false x0 r
                ltac:(lia) Hfirst Hr) as (y & -> & Hy).
    split.
    + split; [discriminate|]. intros He. rewrite He in Hy. inversion Hy.
    + intros y' [= <-]. exact Hy.
  - injection Hr as <-. rewrite current_nonneg in Hfirst by lia.
    split; [|discriminate]. split; [|reflexivity].
    intros _. destruct (rows v); [reflexivity|discriminate].
Qed.

Lemma hasSameParent_true p bottom :
  hasSameParent p bottom = true ->
  exists x, p = Some x /\ instanceofMatch bottom = true /\ instanceofMatch x = true /\
    extUri_isEqual (parentResource (parent x)) (parentResource (parent bottom)) = true.
Proof.
  unfold hasSameParent. destruct (instanceofMatch bottom); simpl; [|discriminate].
  destruct p as [x|]; [|discriminate].
  intros Hp. apply andb_true_iff in Hp as [Hm He]. eauto.
Qed.

Lemma getElementToShowReplacePreview_same_parent v ef bottom isTree p v' :
  getElementToShowReplacePreview v ef bottom isTree = Done (Some p) v' ->
  hasSameParent (Some p) bottom = true.
Proof.
  unfold getElementToShowReplacePreview.
  destruct (hasSameParent ef bottom) eqn:Hef.
  - intros [= -> _]. exact Hef.
  - destruct ef as [x|]; [|discriminate].
    destruct (this_getPreviousElementAfterRemoved _ _ _ _) as [q v2].
    destruct (hasSameParent q bottom) eqn:Hq; [|discriminate].
    intros [= -> _]. exact Hq.
Qed.

(** What [hasToOpenFile] answers, in terms of what it reads: [true] exactly
    for a line match whose file is the resource of the active editor. *)
Lemma hasToOpenFile_spec (w : World SearchResult) (currBottomElem : RenderableMatch) :
  hasToOpenFile w currBottomElem = true <->
  instanceofMatch currBottomElem = true /\
  exists file, activeEditorResource w = Some file /\
    extUri_isEqual file (parentResource (parent currBottomElem)) = true.
Proof.
  unfold hasToOpenFile. destruct (instanceofMatch currBottomElem); simpl.
  - destruct (activeEditorResource w) as [file|].
    + split; [intros He; split; [reflexivity|]; exists file; auto|].
      intros (_ & file' & [= <-] & He). exact He.
    + split; [discriminate|]. intros (_ & file & Hf & _). discriminate.
  - split; [discriminate|]. intros [Hm _]. discriminate.
Qed.

(** X14. With fuel for the loops [performReplace] ends in one of two ways.
    Either it throws, and then it has made no call that moves the DOM
    focus or opens anything. Or it returns, the last element operated on
    is a line match, and after giving the DOM focus to the widget it does
    one of two things, never both: it opens that match in the viewlet (or
    does nothing more, for a runner without viewlet), or it opens the
    replace preview. It opens the preview only with the setting
    [useReplacePreview] on, when there is no active editor with a resource
    or that resource is not the file of the match replaced, and on a line
    match of the same file as the match replaced. With the setting off, or
    with the file of the match replaced in the active editor, it opens the
    match in the viewlet. *)
Theorem performReplace_opens_file_or_preview (fuel : nat) (viewlet : bool)
    (element : RenderableMatch) (w : World SearchResult) :
  size (viewer w) < fuel ->
  exists w',
    (performReplace batchReplace fuel viewlet element w = Done tt w' /\
     exists bottom,
       last (elementsToOperateOn w element) = Some bottom /\
       instanceofMatch bottom = true /\
       (calls w' = calls w ++ DomFocus ::
                     (if viewlet then [ViewletOpen bottom true] else []) \/
        exists preview,
          calls w' = calls w ++ [DomFocus; OpenReplacePreview preview true] /\
          useReplacePreview w = true /\
          hasToOpenFile w bottom = false /\
          (forall file, activeEditorResource w = Some file ->
             extUri_isEqual file (parentResource (parent bottom)) = false) /\
          instanceofMatch preview = true /\
          extUri_isEqual (parentResource (parent preview))
            (parentResource (parent bottom)) = true) /\
       (useReplacePreview w = false \/
        (exists file, activeEditorResource w = Some file /\
           extUri_isEqual file (parentResource (parent bottom)) = true) ->
        calls w' = calls w ++ DomFocus ::
                     (if viewlet then [ViewletOpen bottom true] else []))) \/
    (exists e, performReplace batchReplace fuel viewlet element w = Throws e w' /\
               calls w' = calls w).
Proof.
  intros Hfuel. unfold elementsToOperateOn, performReplace.
  destruct (getElementsToOperateOnInfo (viewer w) element (sortOrder w))
    as [els must]. simpl.
  set (w1 := match getSearchView w with
             | Some _ => mutate (batchReplace els) w
             | None => w
             end).
  assert (Hw1 : viewer w1 = viewer w /\ calls w1 = calls w /\
                useReplacePreview w1 = useReplacePreview w /\
                activeEditorResource w1 = activeEditorResource w).
  { unfold w1. destruct (getSearchView w); repeat split. }
  destruct Hw1 as (Hv1 & Hc1 & Hu1 & Ha1). clearbody w1.
  destruct (last els) as [bottom|]; [|eexists; right; eauto].
  destruct (instanceofMatch bottom) eqn:Hbottom.
  2: { simpl. eexists. right. eexists. split; [reflexivity|]. simpl. exact Hc1. }
  pose proof (length_rows (viewer w)) as Hle.
  destruct (focusAfterReplaceLoop_terminates fuel (viewer w1) bottom
              (navigate (viewer w1) None) false) as [ef Hef];
    [simpl; lia|rewrite Hv1; simpl; lia|lia|].
  unfold getElementToFocusAfterReplace. rewrite Hef.
  set (w2 := match ef with Some x => focusAndSelect x w1 | None => w1 end).
  assert (Hw2 : calls w2 = calls w /\ useReplacePreview w2 = useReplacePreview w /\
                activeEditorResource w2 = activeEditorResource w).
  { unfold w2. destruct ef; simpl; auto. }
  destruct Hw2 as (Hc2 & Hu2 & Ha2). clearbody w2.
  destruct (getElementToShowReplacePreview (viewer w2) ef bottom (treeLayout w2))
    as [preview v2|e v2|] eqn:Hp.
  - assert (Hopen : forall w3 : World SearchResult, calls w3 = calls w ++ [DomFocus] ->
              calls (viewletOpen viewlet bottom w3)
              = calls w ++ DomFocus ::
                  (if viewlet then [ViewletOpen bottom true] else [])).
    { intros w3 H3. unfold viewletOpen. destruct viewlet; simpl; rewrite H3.
      - rewrite <- app_assoc. reflexivity.
      - reflexivity. }
    assert (Hdom : calls (call DomFocus (with_viewer v2 w2)) = calls w ++ [DomFocus]).
    { simpl. rewrite Hc2. reflexivity. }
    pose proof (Hopen _ Hdom) as Hfile.
    destruct preview as [pv|].
    + apply getElementToShowReplacePreview_same_parent in Hp.
      destruct (hasSameParent_true _ _ Hp) as (x & [= <-] & _ & Hpm & Heq).
      simpl. rewrite Hu2.
      assert (Hopenfile : hasToOpenFile (call DomFocus (with_viewer v2 w2)) bottom
                          = hasToOpenFile w bottom).
      { unfold hasToOpenFile. simpl. rewrite Ha2. reflexivity. }
      rewrite Hopenfile.
      destruct (useReplacePreview w) eqn:Hu; simpl.
      * destruct (hasToOpenFile w bottom) eqn:Hf.
        -- eexists. left. split; [reflexivity|]. exists bottom.
           split; [reflexivity|]. split; [exact Hbottom|].
           split; [left; exact Hfile|intros _; exact Hfile].
        -- assert (Hother : forall file, activeEditorResource w = Some file ->
                     extUri_isEqual file (parentResource (parent bottom)) = false).
           { intros file Ha.
             destruct (extUri_isEqual file (parentResource (parent bottom))) eqn:He;
               [|reflexivity].
             rewrite <- Hf. symmetry. apply hasToOpenFile_spec. eauto. }
           eexists. left. split; [reflexivity|]. exists bottom.
           split; [reflexivity|]. split; [exact Hbottom|]. split.
           ++ right. exists pv. simpl. rewrite Hc2, <- app_assoc. auto 10.
           ++ intros [Hoff|(file & Ha & He)]; [discriminate|].
              rewrite (Hother file Ha) in He. discriminate.
      * eexists. left. split; [reflexivity|]. exists bottom.
        split; [reflexivity|]. split; [exact Hbottom|].
        split; [left; exact Hfile|intros _; exact Hfile].
    + eexists. left. split; [reflexivity|]. exists bottom.
      split; [reflexivity|]. split; [exact Hbottom|].
      split; [left; exact Hfile|intros _; exact Hfile].
  - eexists. right. eexists. split; [reflexivity|]. simpl. exact Hc2.
  - exfalso. unfold getElementToShowReplacePreview in Hp.
    destruct (hasSameParent ef bottom); [discriminate|].
    destruct ef as [x|]; [|discriminate].
    destruct (this_getPreviousElementAfterRemoved _ _ _ _) as [q v3].
    destruct (hasSameParent q bottom); discriminate.
Qed.

End HandlerFacts.

(** *** [collapseDeepestExpandedLevel] *)

(** Modelled from the spec: three more operations of the tree widget.
    [collapse(x)] marks the node of [x] collapsed, [collapse(x, true)]
    marks that node and every node below it, and [collapseAll()] marks
    every node. *)
Fixpoint collapseIn (x : RenderableMatch) (n : TreeNode) : TreeNode :=
  match n with
  | Node e c ch =>
      Node e (if decide (e = x) then true else c) (map (collapseIn x) ch)
  end.

Fixpoint collapseAllIn (n : TreeNode) : TreeNode :=
  match n with
  | Node e _ ch => Node e true (map collapseAllIn ch)
  end.

Fixpoint collapseRecursiveIn (x : RenderableMatch) (n : TreeNode) : TreeNode :=
  match n with
  | Node e c ch =>
      if decide (e = x) then Node e true (map collapseAllIn ch)
      else Node e c (map (collapseRecursiveIn x) ch)
  end.

Definition withRoots (f : list TreeNode) (v : Viewer) : Viewer :=
  {| roots := f; selection := selection v; focus := focus v |}.

Definition collapse (x : RenderableMatch) (v : Viewer) : Viewer :=
  withRoots (map (collapseIn x) (roots v)) v.

Definition collapseRecursive (x : RenderableMatch) (v : Viewer) : Viewer :=
  withRoots (map (collapseRecursiveIn x) (roots v)) v.

Definition collapseAll (v : Viewer) : Viewer :=
  withRoots (map collapseAllIn (roots v)) v.

(** [hasElement(p)] for what [parent()] answered. *)
Definition hasElement (v : Viewer) (p : Parent) : bool :=
  match p with
  | ParentMatch e => bool_decide (e ∈ elements v)
  | TheSearchResult => false
  end.

(** [p instanceof FolderMatchWorkspaceRoot || p instanceof FolderMatchNoRoot]. *)
Definition isRootFolder (p : Parent) : bool :=
  match p with
  | ParentMatch (FolderMatch WorkspaceRoot _)
  | ParentMatch (FolderMatch NoRoot _) => true
  | _ => false
  end.

(** [focusFirst()]: the focus goes to the first row, if there is one. *)
Definition focusFirst (v : Viewer) : Viewer :=
  match rows v with
  | x :: _ => setFocus [x] v
  | [] => v
  end.

Section Collapse.

Context `{SearchModel}.

(** The [while (node = navigator.next())] loop under
    [if (node instanceof FolderMatch)]: the two flags after it,
    [canCollapseFileMatchLevel] first. *)
Fixpoint scanLevels (fuel : nat) (isTreeLayoutViewVisible : bool) (v : Viewer)
    (n : Z) (canCollapseFirstLevel : bool) : option (bool * bool) :=
  match fuel with
  | 0 => None
  | S fuel =>
      let n := (n + 1)%Z in
      match current v n with
      | None => Some (false, canCollapseFirstLevel)
      | Some node =>
          if instanceofMatch node then Some (true, canCollapseFirstLevel)
          else
            let canCollapseFirstLevel :=
              if isTreeLayoutViewVisible && negb canCollapseFirstLevel
              then (if isRootFolder (parent node) then true else canCollapseFirstLevel)
              else canCollapseFirstLevel in
            scanLevels fuel isTreeLayoutViewVisible v n canCollapseFirstLevel
      end
  end.

(** [do { if (node instanceof FileMatch) viewer.collapse(node); }
    while (node = navigator.next());] from the cursor [n] on [node]. *)
Fixpoint collapseFileLevel (fuel : nat) (v : Viewer) (n : Z)
    (node : option RenderableMatch) : option Viewer :=
  match fuel with
  | 0 => None
  | S fuel =>
      let v := match node with
               | Some x => if instanceofFileMatch x then collapse x v else v
               | None => v
               end in
      let n := (n + 1)%Z in
      match current v n with
      | Some x => collapseFileLevel fuel v n (Some x)
      | None => Some v
      end
  end.

(** The body of the [do] loop of the first level, on a row. *)
Definition collapseFirstLevelStep (v : Viewer) (node : RenderableMatch) : Viewer :=
  let immediateParent := parent node in
  if isRootFolder immediateParent then
    match immediateParent with
    | ParentMatch p =>
        if hasElement v immediateParent && isCollapsed v (Some p)
        then collapseRecursive p v
        else collapseAll v
    | TheSearchResult => collapseAll v
    end
  else v.

Fixpoint collapseFirstLevel (fuel : nat) (v : Viewer) (n : Z)
    (node : RenderableMatch) : option Viewer :=
  match fuel with
  | 0 => None
  | S fuel =>
      let v := collapseFirstLevelStep v node in
      let n := (n + 1)%Z in
      match current v n with
      | Some x => collapseFirstLevel fuel v n x
      | None => Some v
      end
  end.

(** The last block: when the parent of the first focused element is a
    file or folder match of the tree that is now collapsed, the DOM focus
    and the focus go to the first row and the selection follows. *)
Definition refocusIfHidden (v : Viewer) : Viewer * list HostCall :=
  match parent <$> head (focus v) with
  | Some (ParentMatch p) =>
      if (instanceofFolderMatch p || instanceofFileMatch p)
         && hasElement v (ParentMatch p) && isCollapsed v (Some p)
      then
        let v := focusFirst v in
        (setSelection (focus v) v, [DomFocus])
      else (v, [])
  | _ => (v, [])
  end.

(** [collapseDeepestExpandedLevel], for an active search view: its tree
    layout flag and its control. Without an active view the function does
    nothing. *)
Definition collapseDeepestExpandedLevel (fuel : nat) (isTreeLayoutViewVisible : bool)
    (viewer : Viewer) : option (Viewer * list HostCall) :=
  let node := current viewer 0 in
  flags ← match node with
          | Some x =>
              if instanceofFolderMatch x
              then scanLevels fuel isTreeLayoutViewVisible viewer 0 false
              else Some (false, false)
          | None => Some (false, false)
          end;
  let '(canCollapseFileMatchLevel, canCollapseFirstLevel) := flags in
  viewer ←
    (if canCollapseFileMatchLevel : bool then
       collapseFileLevel fuel viewer 0 (current viewer 0)
     else if canCollapseFirstLevel : bool then
       match current viewer 0 with
       | Some x => collapseFirstLevel fuel viewer 0 x
       | None => Some viewer
       end
     else Some (collapseAll viewer));
  Some (refocusIfHidden viewer).

End Collapse.

(** *** Collapsing keeps the elements *)

Lemma elementsOf_collapseIn x n : elementsOf (collapseIn x n) = elementsOf n.
Proof.
  induction n as [e c ch IH] using TreeNode_ind. simpl. f_equal. f_equal.
  rewrite map_map. induction IH as [|n ch Hn _ IHch]; simpl; [reflexivity|].
  rewrite Hn, IHch. reflexivity.
Qed.

Lemma elementsOf_collapseAllIn n : elementsOf (collapseAllIn n) = elementsOf n.
Proof.
  induction n as [e c ch IH] using TreeNode_ind. simpl. f_equal. f_equal.
  rewrite map_map. induction IH as [|n ch Hn _ IHch]; simpl; [reflexivity|].
  rewrite Hn, IHch. reflexivity.
Qed.

Lemma elementsOf_collapseRecursiveIn x n :
  elementsOf (collapseRecursiveIn x n) = elementsOf n.
Proof.
  induction n as [e c ch IH] using TreeNode_ind. simpl.
  destruct (decide (e = x)) as [_|_]; simpl; f_equal; f_equal; rewrite map_map.
  - apply map_ext. intros n. apply elementsOf_collapseAllIn.
  - induction IH as [|n ch Hn _ IHch]; simpl; [reflexivity|].
    rewrite Hn, IHch. reflexivity.
Qed.

Lemma elements_collapse x v : elements (collapse x v) = elements v.
Proof.
  unfold elements, collapse. simpl. rewrite map_map. f_equal.
  apply map_ext. intros n. apply elementsOf_collapseIn.
Qed.

Lemma elements_collapseAll v : elements (collapseAll v) = elements v.
Proof.
  unfold elements, collapseAll. simpl. rewrite map_map. f_equal.
  apply map_ext. intros n. apply elementsOf_collapseAllIn.
Qed.

Lemma elements_collapseRecursive x v : elements (collapseRecursive x v) = elements v.
Proof.
  unfold elements, collapseRecursive. simpl. rewrite map_map. f_equal.
  apply map_ext. intros n. apply elementsOf_collapseRecursiveIn.
Qed.

Lemma collapseIn_absent x n : x ∉ elementsOf n -> collapseIn x n = n.
Proof.
  induction n as [e c ch IH] using TreeNode_ind. simpl. intros Hx.
  apply not_elem_of_cons in Hx as [Hne Hx].
  destruct (decide (e = x)) as [->|_]; [congruence|]. f_equal.
  induction IH as [|n ch Hn _ IHch]; simpl in *; [reflexivity|].
  apply not_elem_of_app in Hx as [Hx1 Hx2].
  rewrite Hn, IHch by assumption. reflexivity.
Qed.

Lemma collapseIn_forest_absent x f :
  x ∉ concat (map elementsOf f) -> map (collapseIn x) f = f.
Proof.
  induction f as [|n f IH]; simpl; [reflexivity|]. intros Hx.
  apply not_elem_of_app in Hx as [Hx1 Hx2].
  rewrite collapseIn_absent, IH by assumption. reflexivity.
Qed.

(** *** Trees of folders, files and line matches *)

Definition rootOf (n : TreeNode) : RenderableMatch :=
  match n with Node e _ _ => e end.

(** A line match without children. *)
Definition leafMatch (n : TreeNode) : bool :=
  match n with
  | Node e _ [] => instanceofMatch e
  | _ => false
  end.

(** The shape of the results tree: the children of a folder are folders
    and files, the children of a file are line matches, and a line match
    has no children. *)
Fixpoint shaped (n : TreeNode) : bool :=
  match n with
  | Node (Match _) _ ch => match ch with [] => true | _ => false end
  | Node (FileMatch _) _ ch => forallb leafMatch ch
  | Node (FolderMatch _ _) _ ch =>
      forallb (fun n' => negb (instanceofMatch (rootOf n')) && shaped n') ch
  end.

Definition topLevel (n : TreeNode) : bool :=
  negb (instanceofMatch (rootOf n)) && shaped n.

Definition wellShaped (v : Viewer) : bool := forallb topLevel (roots v).

Definition notMatch (x : RenderableMatch) : bool := negb (instanceofMatch x).

(** A list of rows that does not start with a line match. *)
Definition startsNotMatch (l : list RenderableMatch) : Prop :=
  match l with
  | [] => True
  | x :: _ => instanceofMatch x = false
  end.

(** Rows in which a line match only comes after a file or a line match;
    the flag says whether the row before the list allows one. *)
Fixpoint okAfter (allowed : bool) (l : list RenderableMatch) : bool :=
  match l with
  | [] => true
  | x :: l' =>
      if instanceofMatch x then allowed && okAfter true l'
      else okAfter (instanceofFileMatch x) l'
  end.

Lemma rootOf_collapseIn x n : rootOf (collapseIn x n) = rootOf n.
Proof. destruct n. reflexivity. Qed.

Lemma leafMatch_collapseIn x n : leafMatch (collapseIn x n) = leafMatch n.
Proof. destruct n as [e c [|n' ch]]; reflexivity. Qed.

Lemma shaped_collapseIn x n : shaped (collapseIn x n) = shaped n.
Proof.
  induction n as [e c ch IH] using TreeNode_ind.
  destruct e as [k i|i|i]; simpl.
  - induction IH as [|n ch Hn _ IHch]; simpl; [reflexivity|].
    rewrite rootOf_collapseIn, Hn, IHch. reflexivity.
  - clear IH. induction ch as [|n ch IHch]; simpl; [reflexivity|].
    rewrite leafMatch_collapseIn, IHch. reflexivity.
  - destruct ch; reflexivity.
Qed.

Lemma wellShaped_collapse x v : wellShaped (collapse x v) = wellShaped v.
Proof.
  unfold wellShaped, collapse, topLevel. simpl.
  induction (roots v) as [|n f IH]; simpl; [reflexivity|].
  rewrite rootOf_collapseIn, shaped_collapseIn, IH. reflexivity.
Qed.

Lemma leaves_rows ch :
  forallb leafMatch ch = true ->
  Forall (fun x => instanceofMatch x = true) (concat (map rowsOf ch)).
Proof.
  induction ch as [|[e c [|n' ch']] ch IH]; simpl; intros Hl; [constructor| |discriminate].
  apply andb_true_iff in Hl as [He Hl].
  destruct c; simpl; (constructor; [exact He|apply IH, Hl]).
Qed.

Lemma okAfter_matches b D R :
  Forall (fun x => instanceofMatch x = true) D ->
  okAfter b (D ++ R) = true -> okAfter true R = true.
Proof.
  intros HD. revert b. induction HD as [|x D Hx _ IH]; intros b; simpl.
  - destruct b; [auto|]. intros Hok.
    destruct R as [|y R]; [reflexivity|]. simpl in *.
    destruct (instanceofMatch y); [discriminate|exact Hok].
  - rewrite Hx. intros Hok. apply andb_true_iff in Hok as [_ Hok]. apply (IH true Hok).
Qed.

Lemma okAfter_all_matches D :
  Forall (fun x => instanceofMatch x = true) D -> okAfter true D = true.
Proof. induction 1 as [|x D Hx _ IH]; simpl; [reflexivity|]. rewrite Hx. exact IH. Qed.

Lemma okAfter_startsNotMatch b R :
  startsNotMatch R -> okAfter b R = okAfter false R.
Proof. destruct R as [|y R]; simpl; [reflexivity|]. intros ->. reflexivity. Qed.

Lemma okAfter_weaken b l : okAfter false l = true -> okAfter b l = true.
Proof.
  destruct l as [|x l]; simpl; [reflexivity|].
  destruct (instanceofMatch x); [discriminate|auto].
Qed.

Lemma okAfter_app b l1 l2 :
  okAfter b l1 = true -> okAfter false l2 = true -> okAfter b (l1 ++ l2) = true.
Proof.
  revert b. induction l1 as [|x l1 IH]; intros b H1 H2; simpl in *.
  - apply okAfter_weaken, H2.
  - destruct (instanceofMatch x).
    + apply andb_true_iff in H1 as [-> H1]. simpl. apply IH; assumption.
    + apply IH; assumption.
Qed.

Lemma forest_okAfter f :
  Forall (fun n => topLevel n = true -> okAfter false (rowsOf n) = true) f ->
  forallb topLevel f = true -> okAfter false (concat (map rowsOf f)) = true.
Proof.
  induction 1 as [|n f Hn _ IH]; simpl; [reflexivity|]. intros Ht.
  apply andb_true_iff in Ht as [Hn' Ht].
  apply okAfter_app; [apply Hn, Hn'|apply IH, Ht].
Qed.

Lemma rowsOf_okAfter n : topLevel n = true -> okAfter false (rowsOf n) = true.
Proof.
  induction n as [e c ch IH] using TreeNode_ind. unfold topLevel. simpl.
  intros Ht. apply andb_true_iff in Ht as [He Hs].
  destruct e as [k i|i|i]; simpl in *; [| |discriminate].
  - destruct c; [reflexivity|]. apply forest_okAfter; assumption.
  - destruct c; [reflexivity|]. apply okAfter_all_matches, leaves_rows, Hs.
Qed.

Lemma rows_okAfter v : wellShaped v = true -> okAfter false (rows v) = true.
Proof.
  intros Hw. apply forest_okAfter; [|exact Hw].
  apply Forall_forall. intros n _. apply rowsOf_okAfter.
Qed.

Lemma forest_startsNotMatch f :
  forallb topLevel f = true -> startsNotMatch (concat (map rowsOf f)).
Proof.
  destruct f as [|[e c ch] f]; simpl; [auto|]. unfold topLevel. simpl.
  intros Ht. apply andb_true_iff in Ht as [Ht _]. apply andb_true_iff in Ht as [Ht _].
  apply negb_true_iff, Ht.
Qed.

(** *** Collapsing a file hides its line matches and nothing else *)

Section CollapseFile.

Variable x : RenderableMatch.
Hypothesis x_is_file : instanceofFileMatch x = true.

Definition splitsAt (n : TreeNode) : Prop :=
  forall P S, topLevel n = true -> NoDup (elementsOf n) -> rowsOf n = P ++ x :: S ->
    exists D R, S = D ++ R /\ Forall (fun y => instanceofMatch y = true) D /\
      startsNotMatch R /\ rowsOf (collapseIn x n) = P ++ x :: R.

Lemma forest_splitsAt f :
  Forall splitsAt f ->
  forall P S, forallb topLevel f = true -> NoDup (concat (map elementsOf f)) ->
    concat (map rowsOf f) = P ++ x :: S ->
    exists D R, S = D ++ R /\ Forall (fun y => instanceofMatch y = true) D /\
      startsNotMatch R /\
      concat (map rowsOf (map (collapseIn x) f)) = P ++ x :: R.
Proof.
  induction 1 as [|n f Hn _ IH]; intros P S Ht Hnd Hrows; simpl in *.
  { destruct P; discriminate. }
  apply andb_true_iff in Ht as [Htn Htf].
  apply NoDup_app in Hnd as (Hnd1 & Hdisj & Hnd2).
  assert (Later : forall l, concat (map rowsOf f) = l ++ x :: S ->
            exists D R, S = D ++ R /\ Forall (fun y => instanceofMatch y = true) D /\
              startsNotMatch R /\
              rowsOf (collapseIn x n) ++ concat (map rowsOf (map (collapseIn x) f))
              = (rowsOf n ++ l) ++ x :: R).
  { intros l Hl.
    assert (Hx : x ∉ elementsOf n).
    { intros Hin. apply (Hdisj x Hin), forestRows_in_elements.
      rewrite Hl. apply elem_of_middle. }
    destruct (IH l S Htf Hnd2 Hl) as (D & R & HS & HD & HR & Hc).
    exists D, R. repeat split; try assumption.
    rewrite collapseIn_absent, Hc, <- app_assoc by exact Hx. reflexivity. }
  apply app_eq_app in Hrows as [l [[HP Hl]|[HP Hl]]].
  - destruct l as [|y l].
    + rewrite app_nil_r in HP. rewrite HP in Later.
      destruct (Later [] (eq_sym Hl)) as (D & R & HS & HD & HR & Hc).
      exists D, R. repeat split; try assumption.
      rewrite Hc, app_nil_r. reflexivity.
    + simpl in Hl. injection Hl as <- ->.
      destruct (Hn P l Htn Hnd1 HP) as (D & R1 & HS & HD & HR & Hc).
      assert (Hx : x ∉ concat (map elementsOf f)).
      { intros Hin. apply (Hdisj x); [|exact Hin].
        eapply elem_of_sublist; [|apply rowsOf_sublist].
        rewrite HP. apply elem_of_middle. }
      exists D, (R1 ++ concat (map rowsOf f)). split; [|split; [exact HD|split]].
      * rewrite HS, <- app_assoc. reflexivity.
      * destruct R1 as [|r R1]; [apply forest_startsNotMatch, Htf|exact HR].
      * rewrite Hc, collapseIn_forest_absent, <- app_assoc by exact Hx. reflexivity.
  - subst P. apply Later. exact Hl.
Qed.

Lemma rowsOf_splitsAt n : splitsAt n.
Proof.
  induction n as [e c ch IH] using TreeNode_ind.
  intros P S Ht Hnd Hrows. unfold topLevel in Ht. simpl in *.
  apply andb_true_iff in Ht as [He Hs].
  destruct P as [|p P]; simpl in Hrows; injection Hrows as -> Hrows.
  - destruct (decide (x = x)) as [_|Hne]; [|congruence].
    exists S, []. rewrite app_nil_r. split; [reflexivity|].
    split; [|split; [exact I|reflexivity]].
    destruct x as [k i|i|i]; try discriminate. simpl in Hs.
    rewrite <- Hrows. destruct c; [constructor|apply leaves_rows, Hs].
  - apply NoDup_cons in Hnd as [Hp Hnd].
    destruct c; [destruct P; discriminate|].
    destruct (decide (p = x)) as [->|_].
    { exfalso. apply Hp, forestRows_in_elements. rewrite Hrows. apply elem_of_middle. }
    destruct p as [k i|i|i]; simpl in *; [| |discriminate].
    + destruct (forest_splitsAt ch IH P S Hs Hnd Hrows) as (D & R & HS & HD & HR & Hc).
      exists D, R. repeat split; try assumption. rewrite Hc. reflexivity.
    + exfalso. pose proof (leaves_rows ch Hs) as Hall. rewrite Hrows in Hall.
      apply Forall_app in Hall as [_ Hall]. apply Forall_cons in Hall as [Hxm _].
      destruct x; discriminate.
Qed.

Lemma rows_collapse_file v P S :
  wellShaped v = true -> NoDup (elements v) -> rows v = P ++ x :: S ->
  exists D R, S = D ++ R /\ Forall (fun y => instanceofMatch y = true) D /\
    startsNotMatch R /\ rows (collapse x v) = P ++ x :: R.
Proof.
  intros Hw Hnd Hrows.
  apply (forest_splitsAt (roots v)); try assumption.
  apply Forall_forall. intros n _. apply rowsOf_splitsAt.
Qed.

End CollapseFile.

(** *** What [collapseDeepestExpandedLevel] leaves *)

Lemma rows_collapseAll v : rows (collapseAll v) = map rootOf (roots v).
Proof.
  unfold rows, collapseAll. simpl.
  induction (roots v) as [|[e c ch] f IH]; simpl; [reflexivity|].
  rewrite IH. reflexivity.
Qed.

Lemma size_collapse x v : size (collapse x v) = size v.
Proof. unfold size. rewrite elements_collapse. reflexivity. Qed.

Section CollapseFacts.

Context `{SearchModel}.

Lemma scanLevels_spec fuel isTree v n canFirst :
  (-1 <= n)%Z ->
  (Z.of_nat (length (rows v)) - n <= Z.of_nat fuel)%Z -> 0 < fuel ->
  exists canFirst',
    scanLevels fuel isTree v n canFirst
    = Some (existsb instanceofMatch (drop (Z.to_nat (n + 1)) (rows v)), canFirst') /\
    (isTree = false -> canFirst' = canFirst).
Proof.
  revert n canFirst.
  induction fuel as [|fuel IH]; intros n canFirst Hn Hfuel Hpos; [lia|].
  simpl. rewrite current_nonneg by lia.
  destruct (rows v !! Z.to_nat (n + 1)) as [x|] eqn:Hx.
  - rewrite (drop_S _ _ _ Hx). simpl. apply lookup_lt_Some in Hx as Hlt.
    destruct (instanceofMatch x) eqn:HK; simpl; [eauto|].
    destruct (IH (n + 1)%Z
                (if isTree && negb canFirst
                 then if isRootFolder (parent x) then true else canFirst
                 else canFirst)) as (cf & Hrun & Hcf); [lia..|].
    replace (Z.to_nat (n + 1 + 1)) with (S (Z.to_nat (n + 1))) in Hrun by lia.
    exists cf. split; [exact Hrun|].
    intros Ht. rewrite (Hcf Ht), Ht. reflexivity.
  - rewrite drop_ge by (apply lookup_ge_None; exact Hx). simpl. eauto.
Qed.

Lemma filter_matches D :
  Forall (fun y => instanceofMatch y = true) D -> List.filter notMatch D = [].
Proof.
  induction 1 as [|y D Hy _ IH]; simpl; [reflexivity|].
  unfold notMatch at 1. rewrite Hy. exact IH.
Qed.

Lemma collapseFileLevel_spec fuel v Q x T :
  wellShaped v = true -> NoDup (elements v) ->
  rows v = Q ++ x :: T -> okAfter false (x :: T) = true ->
  length (x :: T) <= fuel ->
  exists v', collapseFileLevel fuel v (Z.of_nat (length Q)) (Some x) = Some v' /\
    rows v' = Q ++ List.filter notMatch (x :: T) /\
    elements v' = elements v /\ selection v' = selection v /\ focus v' = focus v.
Proof.
  revert v Q x T.
  induction fuel as [|fuel IH]; intros v Q x T Hw Hnd Hrows Hok Hfuel;
    [simpl in Hfuel; lia|].
  assert (Hxm : instanceofMatch x = false).
  { simpl in Hok. destruct (instanceofMatch x); [discriminate|reflexivity]. }
  assert (Hok' : okAfter (instanceofFileMatch x) T = true).
  { simpl in Hok. rewrite Hxm in Hok. exact Hok. }
  (* the widget after the body, and what follows the row in it *)
  assert (Hbody : exists v1 D R,
            v1 = (if instanceofFileMatch x then collapse x v else v) /\
            T = D ++ R /\ Forall (fun y => instanceofMatch y = true) D /\
            startsNotMatch R /\ rows v1 = Q ++ x :: R /\
            wellShaped v1 = true /\ elements v1 = elements v /\
            selection v1 = selection v /\ focus v1 = focus v).
  { destruct (instanceofFileMatch x) eqn:Hf.
    - destruct (rows_collapse_file x Hf v Q T Hw Hnd Hrows)
        as (D & R & HT & HD & HR & Hc).
      exists (collapse x v), D, R.
      rewrite wellShaped_collapse, elements_collapse. repeat split; assumption.
    - exists v, [], T. repeat split; try assumption; [constructor|].
      destruct T as [|y T]; simpl in *; [exact I|].
      destruct (instanceofMatch y); [discriminate|reflexivity]. }
  destruct Hbody as (v1 & D & R & Hv1 & HT & HD & HR & Hrows1 & Hw1 & He1 & Hs1 & Hf1).
  cbn [collapseFileLevel]. rewrite <- Hv1.
  assert (Hfilter : List.filter notMatch (x :: T) = x :: List.filter notMatch R).
  { simpl. unfold notMatch at 1. rewrite Hxm. simpl. f_equal.
    rewrite HT, List.filter_app, filter_matches by exact HD. reflexivity. }
  assert (Hcur : current v1 (Z.of_nat (length Q) + 1) = head R).
  { rewrite current_nonneg by lia.
    replace (Z.to_nat (Z.of_nat (length Q) + 1)) with (length (Q ++ [x]))
      by (rewrite length_app; simpl; lia).
    rewrite Hrows1. rewrite (cons_middle x Q R), app_assoc.
    rewrite lookup_app_r by lia. rewrite Nat.sub_diag. destruct R; reflexivity. }
  rewrite Hcur, Hfilter. destruct R as [|y R']; cbn [head].
  - exists v1. split; [reflexivity|]. rewrite Hrows1. simpl.
    repeat split; assumption.
  - assert (HokR : okAfter false (y :: R') = true).
    { rewrite <- (okAfter_startsNotMatch true) by exact HR.
      apply (okAfter_matches (instanceofFileMatch x) D); [exact HD|].
      rewrite <- HT. exact Hok'. }
    destruct (IH v1 (Q ++ [x]) y R' Hw1) as (v' & Hrun & Hrows' & He' & Hs' & Hf').
    + rewrite He1. exact Hnd.
    + rewrite Hrows1, <- app_assoc. reflexivity.
    + exact HokR.
    + simpl in *. rewrite HT, length_app in Hfuel. simpl in Hfuel. lia.
    + rewrite length_app in Hrun. simpl in Hrun.
      replace (Z.of_nat (length Q + 1)) with (Z.of_nat (length Q) + 1)%Z in Hrun by lia.
      exists v'. split; [exact Hrun|].
      rewrite Hrows', <- app_assoc. simpl.
      repeat split; congruence.
Qed.

Lemma refocusIfHidden_roots v : roots (refocusIfHidden v).1 = roots v.
Proof.
  unfold refocusIfHidden. destruct (parent <$> head (focus v)) as [[|p]|]; try reflexivity.
  destruct (_ && _); [|reflexivity]. simpl.
  unfold focusFirst. destruct (rows v); reflexivity.
Qed.

(** X16. In a tree of folders, files and line matches whose first row is a
    folder and which shows a line match, [collapseDeepestExpandedLevel]
    collapses the files that are shown: with fuel for its loops it
    returns, the rows it leaves are the rows it found without the line
    matches, in the same order, and the tree keeps its elements. *)
Theorem collapseDeepestExpandedLevel_hides_line_matches (fuel : nat)
    (isTreeLayoutViewVisible : bool) (v : Viewer) :
  wellShaped v = true -> NoDup (elements v) -> size v < fuel ->
  (exists x, head (rows v) = Some x /\ instanceofFolderMatch x = true) ->
  existsb instanceofMatch (rows v) = true ->
  exists v' calls,
    collapseDeepestExpandedLevel fuel isTreeLayoutViewVisible v = Some (v', calls) /\
    rows v' = List.filter notMatch (rows v) /\
    elements v' = elements v.
Proof.
  intros Hw Hnd Hfuel (x & Hhead & Hfolder) Hsome.
  pose proof (length_rows v) as Hle.
  destruct (rows v) as [|x0 T] eqn:Hrows; [discriminate|].
  injection Hhead as ->.
  assert (Hcur : current v 0 = Some x) by (unfold current; simpl; rewrite Hrows; reflexivity).
  unfold collapseDeepestExpandedLevel. rewrite Hcur, Hfolder.
  destruct (scanLevels_spec fuel isTreeLayoutViewVisible v 0 false)
    as (cf & Hscan & _); [lia|rewrite Hrows; simpl in *; lia|lia|].
  assert (Hxm : instanceofMatch x = false) by (destruct x; try discriminate; reflexivity).
  assert (Hflag : existsb instanceofMatch (drop (Z.to_nat (0 + 1)) (rows v)) = true).
  { rewrite Hrows. change (Z.to_nat (0 + 1)) with 1. simpl.
    simpl in Hsome. rewrite Hxm in Hsome. exact Hsome. }
  rewrite Hflag in Hscan. rewrite Hscan. cbn [mbind option_bind].
  destruct (collapseFileLevel_spec fuel v [] x T Hw Hnd Hrows) as
    (v' & Hrun & Hrows' & He & _ & _).
  - rewrite <- Hrows. apply rows_okAfter, Hw.
  - simpl in *. lia.
  - change (Z.of_nat (length (@nil RenderableMatch))) with 0%Z in Hrun.
    rewrite Hrun. cbn [mbind option_bind].
    exists (refocusIfHidden v').1, (refocusIfHidden v').2.
    split; [destruct (refocusIfHidden v'); reflexivity|].
    unfold rows at 1, elements at 1. rewrite refocusIfHidden_roots.
    split; [exact Hrows'|exact He].
Qed.

(** X17. When the first row is not a folder, as in a flat list of files, or
    when there is no row, [collapseDeepestExpandedLevel] collapses every
    node: the rows it leaves are the roots of the tree. No loop runs, so
    this holds for any fuel. *)
Theorem collapseDeepestExpandedLevel_flat_list (fuel : nat)
    (isTreeLayoutViewVisible : bool) (v : Viewer) :
  (forall x, head (rows v) = Some x -> instanceofFolderMatch x = false) ->
  exists v' calls,
    collapseDeepestExpandedLevel fuel isTreeLayoutViewVisible v = Some (v', calls) /\
    roots v' = map collapseAllIn (roots v) /\
    rows v' = map rootOf (roots v).
Proof.
  intros Hfirst. unfold collapseDeepestExpandedLevel.
  assert (Hflags : match current v 0 with
                   | Some x => if instanceofFolderMatch x
                               then scanLevels fuel isTreeLayoutViewVisible v 0 false
                               else Some (false, false)
                   | None => Some (false, false)
                   end = Some (false, false)).
  { unfold current. simpl. destruct (rows v) as [|x l]; simpl in *; [reflexivity|].
    rewrite (Hfirst x eq_refl). reflexivity. }
  rewrite Hflags. simpl.
  exists (refocusIfHidden (collapseAll v)).1, (refocusIfHidden (collapseAll v)).2.
  split; [destruct (refocusIfHidden (collapseAll v)); reflexivity|].
  assert (Hroots : roots (refocusIfHidden (collapseAll v)).1 = map collapseAllIn (roots v))
    by (rewrite refocusIfHidden_roots; reflexivity).
  split; [exact Hroots|].
  unfold rows at 1. rewrite Hroots. apply (rows_collapseAll v).
Qed.

Lemma collapseFileLevel_terminates fuel v n node :
  (0 <= n)%Z -> (Z.of_nat (size v) - n <= Z.of_nat fuel)%Z -> 0 < fuel ->
  exists v', collapseFileLevel fuel v n node = Some v' /\
    elements v' = elements v /\ selection v' = selection v /\ focus v' = focus v.
Proof.
  revert v n node.
  induction fuel as [|fuel IH]; intros v n node Hn Hfuel Hpos; [lia|].
  cbn [collapseFileLevel].
  set (v1 := match node with
             | Some x => if instanceofFileMatch x then collapse x v else v
             | None => v
             end).
  assert (Hv1 : elements v1 = elements v /\ selection v1 = selection v /\
                focus v1 = focus v).
  { unfold v1. destruct node as [x|]; [|auto].
    destruct (instanceofFileMatch x); [|auto].
    rewrite elements_collapse. auto. }
  destruct Hv1 as (He & Hs & Hf). clearbody v1.
  rewrite current_nonneg by lia.
  destruct (rows v1 !! Z.to_nat (n + 1)) as [y|] eqn:Hy; [|eauto].
  apply lookup_lt_Some in Hy. pose proof (length_rows v1) as Hle.
  assert (Hsize : size v1 = size v) by (unfold size; rewrite He; reflexivity).
  destruct (IH v1 (n + 1)%Z (Some y)) as (v' & Hrun & He' & Hs' & Hf'); [lia..|].
  exists v'. split; [exact Hrun|]. repeat split; congruence.
Qed.

Lemma collapseFirstLevelStep_widget v node :
  elements (collapseFirstLevelStep v node) = elements v /\
  selection (collapseFirstLevelStep v node) = selection v /\
  focus (collapseFirstLevelStep v node) = focus v.
Proof.
  unfold collapseFirstLevelStep.
  destruct (isRootFolder (parent node)); [|auto].
  destruct (parent node) as [|p]; [rewrite elements_collapseAll; auto|].
  destruct (_ && _);
    [rewrite elements_collapseRecursive|rewrite elements_collapseAll]; auto.
Qed.

Lemma collapseFirstLevel_terminates fuel v n node :
  (0 <= n)%Z -> (Z.of_nat (size v) - n <= Z.of_nat fuel)%Z -> 0 < fuel ->
  exists v', collapseFirstLevel fuel v n node = Some v' /\
    elements v' = elements v /\ selection v' = selection v /\ focus v' = focus v.
Proof.
  revert v n node.
  induction fuel as [|fuel IH]; intros v n node Hn Hfuel Hpos; [lia|].
  cbn [collapseFirstLevel].
  destruct (collapseFirstLevelStep_widget v node) as (He & Hs & Hf).
  set (v1 := collapseFirstLevelStep v node) in *. clearbody v1.
  rewrite current_nonneg by lia.
  destruct (rows v1 !! Z.to_nat (n + 1)) as [y|] eqn:Hy; [|eauto].
  apply lookup_lt_Some in Hy. pose proof (length_rows v1) as Hle.
  assert (Hsize : size v1 = size v) by (unfold size; rewrite He; reflexivity).
  destruct (IH v1 (n + 1)%Z y) as (v' & Hrun & He' & Hs' & Hf'); [lia..|].
  exists v'. split; [exact Hrun|]. repeat split; congruence.
Qed.

Lemma refocusIfHidden_cases v :
  elements (refocusIfHidden v).1 = elements v /\
  (((refocusIfHidden v).2 = [] /\ (refocusIfHidden v).1 = v) \/
   ((refocusIfHidden v).2 = [DomFocus] /\
    focus (refocusIfHidden v).1 = focus (focusFirst v) /\
    selection (refocusIfHidden v).1 = map Some (focus (focusFirst v)))).
Proof.
  split.
  - unfold elements. rewrite refocusIfHidden_roots. reflexivity.
  - unfold refocusIfHidden.
    destruct (parent <$> head (focus v)) as [[|p]|]; auto.
    destruct (_ && _); auto.
Qed.

(** X18. With fuel above the number of nodes [collapseDeepestExpandedLevel]
    returns, whichever of its three ways it takes, and the tree keeps its
    elements. Focus and selection are either both left as they were, and
    no call is made, or the DOM focus is given to the widget, the focus
    goes to the first row and the selection is set to the focus. *)
Theorem collapseDeepestExpandedLevel_returns (fuel : nat)
    (isTreeLayoutViewVisible : bool) (v : Viewer) :
  size v < fuel ->
  exists v' calls,
    collapseDeepestExpandedLevel fuel isTreeLayoutViewVisible v = Some (v', calls) /\
    elements v' = elements v /\
    ((calls = [] /\ focus v' = focus v /\ selection v' = selection v) \/
     (calls = [DomFocus] /\
      focus v' = match rows v' with x :: _ => [x] | [] => focus v end /\
      selection v' = map Some (focus v'))).
Proof.
  intros Hfuel. pose proof (length_rows v) as Hle.
  unfold collapseDeepestExpandedLevel.
  assert (Hflags : exists fl,
            match current v 0 with
            | Some x => if instanceofFolderMatch x
                        then scanLevels fuel isTreeLayoutViewVisible v 0 false
                        else Some (false, false)
            | None => Some (false, false)
            end = Some fl).
  { destruct (current v 0) as [x|]; [|eauto].
    destruct (instanceofFolderMatch x); [|eauto].
    destruct (scanLevels_spec fuel isTreeLayoutViewVisible v 0 false)
      as (cf & Hscan & _); [lia..|]. eauto. }
  destruct Hflags as ([canFile canFirst] & ->). cbn [mbind option_bind].
  assert (Hmid : exists v1,
            (if canFile then collapseFileLevel fuel v 0 (current v 0)
             else if canFirst then
               match current v 0 with
               | Some x => collapseFirstLevel fuel v 0 x
               | None => Some v
               end
             else Some (collapseAll v)) = Some v1 /\
            elements v1 = elements v /\ selection v1 = selection v /\
            focus v1 = focus v).
  { destruct canFile.
    - apply collapseFileLevel_terminates; lia.
    - destruct canFirst.
      + destruct (current v 0) as [x|]; [|eauto].
        apply collapseFirstLevel_terminates; lia.
      + eexists. split; [reflexivity|]. rewrite elements_collapseAll. auto. }
  destruct Hmid as (v1 & -> & He & Hs & Hf). cbn [mbind option_bind].
  exists (refocusIfHidden v1).1, (refocusIfHidden v1).2.
  split; [destruct (refocusIfHidden v1); reflexivity|].
  destruct (refocusIfHidden_cases v1) as (He1 & [[Hc Hv]|(Hc & Hfo & Hse)]).
  - split; [congruence|]. left. rewrite Hv. auto.
  - split; [congruence|]. right. split; [exact Hc|].
    assert (Hrows : rows (refocusIfHidden v1).1 = rows v1)
      by (unfold rows; rewrite refocusIfHidden_roots; reflexivity).
    rewrite Hrows, Hse, Hfo. split; [|reflexivity].
    unfold focusFirst. destruct (rows v1); simpl; congruence.
Qed.

End CollapseFacts.

(** *** A sample tree *)

(** Two workspace roots. The first is expanded and holds an expanded file
    with two matches and a collapsed file with one; the second is
    collapsed. The rows are [F1; f2; m3; m4; f5; F7]. *)
Definition sampleRoots : list TreeNode :=
  [ Node (FolderMatch WorkspaceRoot 1) false
      [ Node (FileMatch 2) false [Node (Match 3) false []; Node (Match 4) false []];
        Node (FileMatch 5) true [Node (Match 6) false []] ];
    Node (FolderMatch WorkspaceRoot 7) true
      [ Node (FileMatch 8) true [Node (Match 9) false []] ] ].

Definition sampleViewer : Viewer :=
  {| roots := sampleRoots; selection := [Some (Match 4)]; focus := [Match 4] |}.

Definition idOf (e : RenderableMatch) : nat :=
  match e with FolderMatch _ i | FileMatch i | Match i => i end.

Definition sampleParent (e : RenderableMatch) : Parent :=
  match e with
  | Match 3 | Match 4 => ParentMatch (FileMatch 2)
  | Match 6 => ParentMatch (FileMatch 5)
  | Match _ => ParentMatch (FileMatch 8)
  | FileMatch 8 => ParentMatch (FolderMatch WorkspaceRoot 7)
  | FileMatch _ => ParentMatch (FolderMatch WorkspaceRoot 1)
  | FolderMatch _ _ => TheSearchResult
  end.

Definition sampleParentName (p : Parent) : string :=
  match p with
  | TheSearchResult => "/"
  | ParentMatch e => pretty (idOf e)
  end.

(** [arrayContainsElementOrParent] of the search model, on the sample: the
    element or one of its ancestors is in the array. *)
Definition sampleContains (e : RenderableMatch) (l : list RenderableMatch) : bool :=
  includes e l
  || match sampleParent e with
     | TheSearchResult => false
     | ParentMatch p =>
         includes p l
         || match sampleParent p with
            | TheSearchResult => false
            | ParentMatch q => includes q l
            end
     end.

#[local] Instance sampleModel : SearchModel :=
  {| parent := sampleParent;
     closestRoot := fun e =>
       match sampleParent e with
       | ParentMatch (FolderMatch c i) => Some (FolderMatch c i)
       | _ => None
       end;
     parentId := sampleParentName;
     parentResource := sampleParentName;
     startPosition := fun e => (Z.of_nat (idOf e), 1%Z);
     searchComparer := fun a b _ => (Z.of_nat (idOf a) - Z.of_nat (idOf b))%Z;
     arrayContainsElementOrParent := sampleContains;
     extUri_isEqual := String.eqb |}.

(** A model that is the list of its live nodes: removal and replacement
    both take the elements out of it. *)
Definition sampleBatch (els : list RenderableMatch) (m : list RenderableMatch)
    : list RenderableMatch :=
  List.filter (fun x => negb (includes x els)) m.

Definition sampleWorld : World (list RenderableMatch) :=
  {| viewer := sampleViewer;
     activeSearchView :=
       Some {| searchResult := concat (map elementsOf sampleRoots);
               isTreeLayoutViewVisible := true |};
     sortOrder := "default";
     useReplacePreview := true;
     activeEditorResource := None;
     calls := [] |}.

(** The sample with the file [f2] in the active editor. *)
Definition editorWorld : World (list RenderableMatch) :=
  {| viewer := sampleViewer;
     activeSearchView :=
       Some {| searchResult := concat (map elementsOf sampleRoots);
               isTreeLayoutViewVisible := true |};
     sortOrder := "default";
     useReplacePreview := true;
     activeEditorResource := Some "2";
     calls := [] |}.

(** The sample without an active search view. *)
Definition worldWithoutView : World (list RenderableMatch) :=
  {| viewer := sampleViewer;
     activeSearchView := None;
     sortOrder := "default";
     useReplacePreview := true;
     activeEditorResource := None;
     calls := [] |}.

(** The sample tree with a selection of three rows and a [null] entry, out
    of order. *)
Definition selectionViewer : Viewer :=
  {| roots := sampleRoots;
     selection := [Some (Match 4); None; Some (FileMatch 2); Some (Match 3)];
     focus := [Match 3] |}.

Lemma sampleViewer_NoDup : NoDup (elements sampleViewer).
Proof. apply (bool_decide_unpack _). vm_compute. exact I. Qed.

(** From the last match of the first file the loop passes over the
    collapsed file [f5], expands it, and stops on its match. *)
Example next_after_last_match_of_file :
  getNextElementAfterRemoved 10 sampleViewer (Match 4)
  = Done (Some (Match 6)) (expand (FileMatch 5) sampleViewer) /\
  rows (expand (FileMatch 5) sampleViewer)
  = [FolderMatch WorkspaceRoot 1; FileMatch 2; Match 3; Match 4; FileMatch 5;
     Match 6; FolderMatch WorkspaceRoot 7].
Proof. split; vm_compute; reflexivity. Qed.

Example next_after_file_and_folder :
  getNextElementAfterRemoved 10 sampleViewer (FileMatch 2)
  = Done (Some (FileMatch 5)) sampleViewer /\
  getNextElementAfterRemoved 10 sampleViewer (FolderMatch WorkspaceRoot 7)
  = Done None sampleViewer /\
  getNextElementAfterRemoved 10 sampleViewer (FolderMatch WorkspaceRoot 1)
  = Done (Some (FolderMatch WorkspaceRoot 7)) sampleViewer.
Proof. repeat split; vm_compute; reflexivity. Qed.


Lemma getElementToFocusAfterRemoved_next_else_previous_witness :
  exists next v1,
    getNextElementAfterRemoved 10 sampleViewer (FolderMatch WorkspaceRoot 7)
      = Done next v1 /\
    getElementToFocusAfterRemoved AnAction 10 sampleViewer
      (FolderMatch WorkspaceRoot 7) true
    = match next with
      | Some x => Done (Some x) v1
      | None =>
          Done (getPreviousElementAfterRemoved v1 (FolderMatch WorkspaceRoot 7) true).1
               (getPreviousElementAfterRemoved v1 (FolderMatch WorkspaceRoot 7) true).2
      end.
Proof.
  apply (getElementToFocusAfterRemoved_next_else_previous 10 sampleViewer
           (FolderMatch WorkspaceRoot 7) true).
  vm_compute. lia.
Defined.

(** After the last folder there is no next folder: the focus goes to the
    row before it. After the first folder it goes to the next folder. *)
Example focus_after_removed_folder :
  getElementToFocusAfterRemoved AnAction 10 sampleViewer
    (FolderMatch WorkspaceRoot 7) true
  = Done (Some (FileMatch 5)) sampleViewer /\
  getElementToFocusAfterRemoved AnAction 10 sampleViewer
    (FolderMatch WorkspaceRoot 1) true
  = Done (Some (FolderMatch WorkspaceRoot 7)) sampleViewer.
Proof. split; vm_compute; reflexivity. Qed.

Lemma model_changed_only_by_batch_calls_witness :
  (exists w', RemoveAction_run sampleBatch 10 (Match 4) sampleWorld = Done tt w' /\
     modelOf w' = sampleBatch (elementsToOperateOn sampleWorld (Match 4))
                  <$> modelOf sampleWorld) /\
  (exists w',
     (performReplace sampleBatch 10 true (Match 4) sampleWorld = Done tt w' \/
      exists e, performReplace sampleBatch 10 true (Match 4) sampleWorld = Throws e w') /\
     modelOf w' = sampleBatch (elementsToOperateOn sampleWorld (Match 4))
                  <$> modelOf sampleWorld).
Proof.
  apply (model_changed_only_by_batch_calls sampleBatch sampleBatch 10 true
           (Match 4) sampleWorld).
  vm_compute. lia.
Defined.

(** Removing the match [m4]: the focus moves to [m6], whose file is
    expanded on the way, and the model loses [m4] and nothing else. *)
Example remove_last_match_of_file :
  exists w', RemoveAction_run sampleBatch 10 (Match 4) sampleWorld = Done tt w' /\
    focus (viewer w') = [Match 6] /\
    calls w' = [Reveal (Match 6); DomFocus] /\
    modelOf w'
    = Some [FolderMatch WorkspaceRoot 1; FileMatch 2; Match 3; FileMatch 5; Match 6;
            FolderMatch WorkspaceRoot 7; FileMatch 8; Match 9].
Proof. eexists. split; [vm_compute; reflexivity|]. repeat split. Qed.

(** Replacing in the whole file [f2]: the replacement is started, and the
    handler then throws on the detached call. *)
Example replace_all_in_file_throws :
  exists w', performReplace sampleBatch 10 true (FileMatch 2) sampleWorld
             = Throws notAFunction w' /\
    modelOf w'
    = Some [FolderMatch WorkspaceRoot 1; Match 3; Match 4; FileMatch 5; Match 6;
            FolderMatch WorkspaceRoot 7; FileMatch 8; Match 9] /\
    calls w' = [].
Proof. eexists. split; [vm_compute; reflexivity|]. repeat split. Qed.

(** A selection of two rows that holds the current element is operated on
    as a whole, in sorted order; a current element outside the selection
    is operated on alone. *)
Example elements_to_operate_on :
  let v := {| roots := sampleRoots; selection := [Some (Match 4); None; Some (Match 3)];
              focus := [] |} in
  getElementsToOperateOnInfo v (Match 3) "default" = ([Match 3; Match 4], true) /\
  getElementsToOperateOnInfo v (FileMatch 5) "default" = ([FileMatch 5], false).
Proof. split; vm_compute; reflexivity. Qed.

(** The comparator of the sample orders consistently, and the selection
    of [selectionViewer], which holds the current element, comes back
    without its [null] entry and in the order of the comparator. *)
Lemma getElementsToOperateOnInfo_spec_witness :
  JS.total (fun a b => searchComparer a b "default") /\
  JS.transitive (fun a b => searchComparer a b "default") /\
  getElementsToOperateOnInfo selectionViewer (Match 3) "default"
    = ([FileMatch 2; Match 3; Match 4], true) /\
  (forall i j a b, i < j ->
     (getElementsToOperateOnInfo selectionViewer (Match 3) "default").1 !! i = Some a ->
     (getElementsToOperateOnInfo selectionViewer (Match 3) "default").1 !! j = Some b ->
     (searchComparer a b "default" <= 0)%Z).
Proof.
  assert (Htotal : JS.total (fun a b => searchComparer a b "default")).
  { intros a b. simpl. lia. }
  assert (Htrans : JS.transitive (fun a b => searchComparer a b "default")).
  { intros a b c. simpl. lia. }
  pose proof (getElementsToOperateOnInfo_spec selectionViewer (Match 3) "default")
    as Hspec.
  cbv zeta in Hspec.
  destruct Hspec as (_ & _ & _ & _ & _ & _ & _ & Hsorted & _).
  destruct (Hsorted Htotal Htrans) as [_ Hinfo].
  split; [exact Htotal|]. split; [exact Htrans|].
  split; [reflexivity|exact Hinfo].
Defined.

(** The comparator decides: the same selection under the inverse order
    comes back the other way round. *)
Example elements_to_operate_on_inverse_order :
  let inverse : SearchModel :=
    {| parent := sampleParent; closestRoot := closestRoot; parentId := sampleParentName;
       parentResource := sampleParentName; startPosition := startPosition;
       searchComparer := fun a b _ => (Z.of_nat (idOf b) - Z.of_nat (idOf a))%Z;
       arrayContainsElementOrParent := sampleContains;
       extUri_isEqual := String.eqb |} in
  (@getElementsToOperateOnInfo inverse selectionViewer (Match 3) "default").1
  = [Match 4; Match 3; FileMatch 2].
Proof. reflexivity. Qed.

(** *** The handlers on the sample tree *)


(** [performReplace] without a search view does as much: no replacement is
    started, and the focus is given to the widget and the preview opened
    all the same. *)
Example performReplace_without_search_view :
  getSearchView worldWithoutView = None /\
  exists w', performReplace sampleBatch 10 true (Match 4) worldWithoutView = Done tt w' /\
    calls w' = [DomFocus; OpenReplacePreview (Match 4) true].
Proof. split; [reflexivity|]. eexists. split; [vm_compute; reflexivity|reflexivity]. Qed.

Lemma RemoveAction_run_focus_witness :
  exists w', RemoveAction_run sampleBatch 10 (Match 4) sampleWorld = Done tt w' /\
    ((focus (viewer w') = focus (viewer sampleWorld) /\
      selection (viewer w') = selection (viewer sampleWorld) /\
      calls w' = calls sampleWorld ++ [DomFocus]) \/
     exists x,
       arrayContainsElementOrParent x (elementsToOperateOn sampleWorld (Match 4)) = false /\
       focus (viewer w') = [x] /\ selection (viewer w') = [Some x] /\
       calls w' = calls sampleWorld ++ [Reveal x; DomFocus]).
Proof.
  apply (RemoveAction_run_focus sampleBatch 10 (Match 4) sampleWorld).
  vm_compute. lia.
Defined.

Lemma RemoveAction_run_outside_selection_witness :
  elementsToOperateOn sampleWorld (Match 3) = [Match 3] /\
  RemoveAction_run sampleBatch 10 (Match 3) sampleWorld
  = Done tt (call DomFocus
               (match getSearchView sampleWorld with
                | Some _ => mutate (sampleBatch [Match 3]) sampleWorld
                | None => sampleWorld
                end)).
Proof.
  apply (RemoveAction_run_outside_selection sampleBatch 10 (Match 3) sampleWorld).
  apply (bool_decide_unpack _). vm_compute. exact I.
Defined.

Lemma getElementToFocusAfterReplace_is_a_row_witness :
  exists r, getElementToFocusAfterReplace 10 sampleViewer (Match 3) = Some r /\
    (r = None <-> rows sampleViewer = []) /\
    (forall y, r = Some y -> y ∈ rows sampleViewer).
Proof.
  apply (getElementToFocusAfterReplace_is_a_row 10 sampleViewer (Match 3)).
  vm_compute. lia.
Defined.

(** After the replacement of [m3] the focus goes to [m3] itself while it
    is still shown, the closest match of the file that does not start
    before it. *)
Example focus_after_replace_of_first_match :
  getElementToFocusAfterReplace 10 sampleViewer (Match 3) = Some (Some (Match 3)) /\
  getElementToFocusAfterReplace 10 sampleViewer (Match 6)
  = Some (Some (FolderMatch WorkspaceRoot 7)).
Proof. split; vm_compute; reflexivity. Qed.

Lemma performReplace_opens_file_or_preview_witness :
  size (viewer editorWorld) < 10 /\
  exists w',
    performReplace sampleBatch 10 true (Match 4) editorWorld = Done tt w' /\
    last (elementsToOperateOn editorWorld (Match 4)) = Some (Match 4) /\
    activeEditorResource editorWorld = Some "2" /\
    extUri_isEqual "2" (parentResource (parent (Match 4))) = true /\
    calls w' = calls editorWorld ++ [DomFocus; ViewletOpen (Match 4) true].
Proof.
  assert (Hfuel : size (viewer editorWorld) < 10) by (vm_compute; lia).
  split; [exact Hfuel|].
  destruct (performReplace_opens_file_or_preview sampleBatch 10 true (Match 4)
              editorWorld Hfuel)
    as (w' & [(Hrun & bottom & Hlast & _ & _ & Hopen)|(e & Hrun & _)]).
  - exists w'. split; [exact Hrun|].
    assert (Hbottom : bottom = Match 4) by (vm_compute in Hlast; congruence).
    subst bottom.
    split; [reflexivity|]. split; [reflexivity|]. split; [reflexivity|].
    apply Hopen. right. exists "2". split; reflexivity.
  - vm_compute in Hrun. discriminate.
Defined.

(** The same replacement with the file of the match in the active editor
    and with another file there: the first opens the match in the viewlet,
    the second opens the preview. *)
Example replace_match_in_active_editor :
  (exists w', performReplace sampleBatch 10 true (Match 4) editorWorld = Done tt w' /\
     calls w' = [DomFocus; ViewletOpen (Match 4) true]) /\
  (exists w', performReplace sampleBatch 10 true (Match 6) editorWorld = Done tt w' /\
     hasToOpenFile editorWorld (Match 6) = false /\
     focus (viewer w') = [FolderMatch WorkspaceRoot 7]).
Proof.
  split; eexists; (split; [vm_compute; reflexivity|]); repeat split.
Qed.

(** Replacing [m4] with the preview setting on: the preview opens on the
    match the focus went to. *)
Example replace_match_opens_preview :
  exists w', performReplace sampleBatch 10 true (Match 4) sampleWorld = Done tt w' /\
    calls w' = [DomFocus; OpenReplacePreview (Match 4) true] /\
    focus (viewer w') = [Match 4].
Proof. eexists. split; [vm_compute; reflexivity|]. split; reflexivity. Qed.

Lemma performReplace_detached_call_throws_witness :
  performReplace sampleBatch 10 true (FileMatch 2) sampleWorld
  = Throws notAFunction
      (match getSearchView sampleWorld with
       | Some _ => mutate (sampleBatch (elementsToOperateOn sampleWorld (FileMatch 2)))
                     sampleWorld
       | None => sampleWorld
       end).
Proof.
  apply (performReplace_detached_call_throws sampleBatch 10 true (FileMatch 2)
           (FileMatch 2) sampleWorld); reflexivity.
Defined.

(** *** Collapsing on the sample tree *)

Lemma collapseDeepestExpandedLevel_hides_line_matches_witness :
  exists v' calls,
    collapseDeepestExpandedLevel 10 true sampleViewer = Some (v', calls) /\
    rows v' = List.filter notMatch (rows sampleViewer) /\
    elements v' = elements sampleViewer.
Proof.
  apply (collapseDeepestExpandedLevel_hides_line_matches 10 true sampleViewer).
  - reflexivity.
  - apply (bool_decide_unpack _). vm_compute. exact I.
  - vm_compute. lia.
  - exists (FolderMatch WorkspaceRoot 1). split; reflexivity.
  - reflexivity.
Defined.

(** On the sample the two matches of the expanded file go, the focus, which
    was on one of them, moves to the first row, and the selection
    follows. *)
Example collapse_sample :
  exists v', collapseDeepestExpandedLevel 10 true sampleViewer = Some (v', [DomFocus]) /\
    rows v' = [FolderMatch WorkspaceRoot 1; FileMatch 2; FileMatch 5;
               FolderMatch WorkspaceRoot 7] /\
    focus v' = [FolderMatch WorkspaceRoot 1] /\
    selection v' = [Some (FolderMatch WorkspaceRoot 1)].
Proof. eexists. split; [vm_compute; reflexivity|]. repeat split. Qed.

(** A flat list of two files, the first expanded. *)
Definition flatViewer : Viewer :=
  {| roots := [ Node (FileMatch 2) false [Node (Match 3) false []];
                Node (FileMatch 5) true [Node (Match 6) false []] ];
     selection := []; focus := [] |}.

Lemma collapseDeepestExpandedLevel_flat_list_witness :
  exists v' calls,
    collapseDeepestExpandedLevel 0 false flatViewer = Some (v', calls) /\
    roots v' = map collapseAllIn (roots flatViewer) /\
    rows v' = map rootOf (roots flatViewer).
Proof.
  apply (collapseDeepestExpandedLevel_flat_list 0 false flatViewer).
  intros x [= <-]. reflexivity.
Defined.

Lemma collapseDeepestExpandedLevel_returns_witness :
  exists v' calls,
    collapseDeepestExpandedLevel 10 true sampleViewer = Some (v', calls) /\
    elements v' = elements sampleViewer /\
    ((calls = [] /\ focus v' = focus sampleViewer /\
      selection v' = selection sampleViewer) \/
     (calls = [DomFocus] /\
      focus v' = match rows v' with x :: _ => [x] | [] => focus sampleViewer end /\
      selection v' = map Some (focus v'))).
Proof.
  apply (collapseDeepestExpandedLevel_returns 10 true sampleViewer).
  vm_compute. lia.
Defined.

End SearchTree.
